(** * BS Context Menu: a shallow embedding of the menu state machine

    The development follows the library's single source file.  The document
    is a tree of elements; the two module-level variables [activeMenu] and
    [lastRightClickedElement], together with the DOM properties the code
    writes, form the state; every function of the source is a state
    transformer of the same name, and an event handler also returns the
    event with the flags it has set.

    What belongs to the browser is written down once, where it is used:
    - pixels are integers ([Z]);
    - an element is identified by its position in the document tree, which
      plays the role of JavaScript object identity; the tree is the one
      below [document.body] and does not change;
    - an element is rendered unless the injected style sheet hides it, that
      is unless it lies in a [.context-menu] without the [show] class; an
      element that is not rendered measures 0 by 0 and cannot take focus;
    - listeners of the two custom events and the items' own click handlers
      are page code and are not run here.

    The style injection is not modelled; its effect is the display rule
    above.  The trigger scan ([ensureTriggersAreFocusable], [refresh]) is
    modelled on its own, over the [tabindex] attributes it reads and
    writes; for the menu state machine its effect is the [focusable] flag. *)

From Stdlib Require Import ZArith Lia.
From stdpp Require Import gmap strings list.

Local Open Scope string_scope.
Local Open Scope Z_scope.

(** ** The document *)

(** What the code reads from an element and never writes.  [classes] holds
    the tokens of the class attribute apart from [show], which the code
    toggles and which therefore lives in the state.  [matchesDisabled] is the
    [:disabled] pseudo-class, [focusable] says whether the element is a
    focusable area once it is rendered, [box] is the width and height of its
    rendered box. *)
Record Element := {
  tagName : string;
  attributes : list (string * string);
  classes : list string;
  matchesDisabled : bool;
  focusable : bool;
  box : Z * Z
}.

#[local] Unset Elimination Schemes.
Inductive Node := Nd (e : Element) (cs : list Node).
#[local] Set Elimination Schemes.

(** A handle lists the child indices from the element up to the root of the
    modelled tree, nearest first; the root ([document.body]) is [[]], the
    parent of [i :: h] is [h]. *)
Definition handle := list nat.

Definition body : handle := [].

Definition CONTEXT_MENU_ATTR : string := "data-bs-context-menu".
Definition CONTEXT_MENU_CLASS : string := "context-menu".
Definition SHOW_CLASS : string := "show".

(** The selectors that occur in the source. *)
Inductive selector :=
| SelAttr (name : string)
| SelClass (c : string)
| SelDisabled
| SelNot (s : selector)
| SelAnd (s1 s2 : selector).

(** [[data-bs-context-menu]] *)
Definition TRIGGER : selector := SelAttr CONTEXT_MENU_ATTR.
(** [.dropdown-item] *)
Definition ITEM : selector := SelClass "dropdown-item".
(** [.dropdown-item:not(.disabled):not(:disabled)] *)
Definition ENABLED_ITEM : selector :=
  SelAnd ITEM (SelAnd (SelNot (SelClass "disabled")) (SelNot SelDisabled)).

Fixpoint lookupAttr (name : string) (l : list (string * string)) : option string :=
  match l with
  | [] => None
  | (k, v) :: l' => if decide (k = name) then Some v else lookupAttr name l'
  end.

Definition hasClass (c : string) (e : Element) : bool :=
  bool_decide (c ∈ classes e).

Fixpoint matches (s : selector) (e : Element) : bool :=
  match s with
  | SelAttr name => bool_decide (is_Some (lookupAttr name (attributes e)))
  | SelClass c => hasClass c e
  | SelDisabled => matchesDisabled e
  | SelNot s' => negb (matches s' e)
  | SelAnd s1 s2 => matches s1 e && matches s2 e
  end.

Definition element (n : Node) : Element := match n with Nd e _ => e end.
Definition childNodes (n : Node) : list Node := match n with Nd _ cs => cs end.

(** Follows child indices from [n] downwards (root first). *)
Fixpoint descend (n : Node) (path : list nat) : option Node :=
  match path with
  | [] => Some n
  | i :: rest =>
      match childNodes n !! i with
      | Some c => descend c rest
      | None => None
      end
  end.

(** Strict descendants of [n], whose handle is [h], in document order. *)
Fixpoint descendants (h : handle) (n : Node) : list (handle * Element) :=
  match n with
  | Nd _ cs =>
      (fix kids (i : nat) (l : list Node) : list (handle * Element) :=
         match l with
         | [] => []
         | c :: l' =>
             (i :: h, element c) :: descendants (i :: h) c ++ kids (S i) l'
         end) 0%nat cs
  end.

(** The same list, with the children numbered from [i]. *)
Fixpoint kids (h : handle) (i : nat) (l : list Node) : list (handle * Element) :=
  match l with
  | [] => []
  | c :: l' => (i :: h, element c) :: descendants (i :: h) c ++ kids h (S i) l'
  end.

Section Document.

(** The tree below [document.body], fixed for the lifetime of the page. *)
Variable doc : Node.

Definition nodeAt (h : handle) : option Node := descend doc (rev h).

Definition elementAt (h : handle) : option Element := element <$> nodeAt h.

Definition matchesAt (s : selector) (h : handle) : bool :=
  match elementAt h with
  | Some e => matches s e
  | None => false
  end.

(** [el.classList.contains(c)] for the classes the code never toggles. *)
Definition classListContains (c : string) (h : handle) : bool :=
  matchesAt (SelClass c) h.

(** [el.getAttribute(name)] *)
Definition getAttribute (name : string) (h : handle) : option string :=
  e ← elementAt h; lookupAttr name (attributes e).

(** [el.closest(s)]: the element itself or its nearest matching ancestor. *)
Fixpoint closest (s : selector) (h : handle) : option handle :=
  if matchesAt s h then Some h
  else match h with
       | [] => None
       | _ :: parent => closest s parent
       end.

(** [a.contains(b)]: [b] is [a] or one of its descendants. *)
Fixpoint contains (a b : handle) : bool :=
  if decide (b = a) then true
  else match b with
       | [] => false
       | _ :: parent => contains a parent
       end.

(** [root.querySelectorAll(s)] *)
Definition querySelectorAll (s : selector) (root : handle) : list handle :=
  match nodeAt root with
  | Some n => (filter (λ he, matches s he.2 = true) (descendants root n)).*1
  | None => []
  end.

(** [root.querySelector(s)] *)
Definition querySelector (s : selector) (root : handle) : option handle :=
  head (querySelectorAll s root).

(** [document.getElementById(id)]: first element in document order whose
    id is [id].  An empty [id] attribute gives an element no id, so the
    empty string finds nothing. *)
Definition getElementById (id : string) : option handle :=
  if decide (id = "") then None
  else head (filter (λ he, lookupAttr "id" (attributes he.2) = Some id)
               ((body, element doc) :: descendants body doc)).*1.


(** ** The state *)

(** The two custom events the code dispatches on the menu element, with
    their [detail]. *)
Inductive Notification :=
| ShowNotification (menu trigger : handle) (x y : Z)
| HideNotification (menu : handle) (trigger : option handle).

(** The module variables [activeMenu] and [lastRightClickedElement], the
    DOM properties the code writes, and what it hands to the browser:
    dispatched events, in order, and the callbacks passed to
    [requestAnimationFrame] that have not run yet (each closure is its
    captured [menu], [x] and [y]). *)
Record State := {
  activeMenu : option handle;
  lastRightClickedElement : option handle;
  showClass : gset handle;
  ariaExpanded : gmap handle bool;
  styleLeft : gmap handle Z;
  styleTop : gmap handle Z;
  bsContextMenuTrigger : gmap handle handle;
  activeElement : handle;
  dispatched : list Notification;
  frameRequests : list (handle * Z * Z);
  innerWidth : Z;
  innerHeight : Z
}.

Definition setActiveMenu (v : option handle) (st : State) : State :=
  {| activeMenu := v;
     lastRightClickedElement := lastRightClickedElement st;
     showClass := showClass st; ariaExpanded := ariaExpanded st;
     styleLeft := styleLeft st; styleTop := styleTop st;
     bsContextMenuTrigger := bsContextMenuTrigger st;
     activeElement := activeElement st; dispatched := dispatched st;
     frameRequests := frameRequests st;
     innerWidth := innerWidth st; innerHeight := innerHeight st |}.

Definition setLastRightClickedElement (v : option handle) (st : State) : State :=
  {| activeMenu := activeMenu st;
     lastRightClickedElement := v;
     showClass := showClass st; ariaExpanded := ariaExpanded st;
     styleLeft := styleLeft st; styleTop := styleTop st;
     bsContextMenuTrigger := bsContextMenuTrigger st;
     activeElement := activeElement st; dispatched := dispatched st;
     frameRequests := frameRequests st;
     innerWidth := innerWidth st; innerHeight := innerHeight st |}.

Definition setShowClass (v : gset handle) (st : State) : State :=
  {| activeMenu := activeMenu st;
     lastRightClickedElement := lastRightClickedElement st;
     showClass := v; ariaExpanded := ariaExpanded st;
     styleLeft := styleLeft st; styleTop := styleTop st;
     bsContextMenuTrigger := bsContextMenuTrigger st;
     activeElement := activeElement st; dispatched := dispatched st;
     frameRequests := frameRequests st;
     innerWidth := innerWidth st; innerHeight := innerHeight st |}.

Definition setAriaExpanded (v : gmap handle bool) (st : State) : State :=
  {| activeMenu := activeMenu st;
     lastRightClickedElement := lastRightClickedElement st;
     showClass := showClass st; ariaExpanded := v;
     styleLeft := styleLeft st; styleTop := styleTop st;
     bsContextMenuTrigger := bsContextMenuTrigger st;
     activeElement := activeElement st; dispatched := dispatched st;
     frameRequests := frameRequests st;
     innerWidth := innerWidth st; innerHeight := innerHeight st |}.

Definition setStyle (left top : gmap handle Z) (st : State) : State :=
  {| activeMenu := activeMenu st;
     lastRightClickedElement := lastRightClickedElement st;
     showClass := showClass st; ariaExpanded := ariaExpanded st;
     styleLeft := left; styleTop := top;
     bsContextMenuTrigger := bsContextMenuTrigger st;
     activeElement := activeElement st; dispatched := dispatched st;
     frameRequests := frameRequests st;
     innerWidth := innerWidth st; innerHeight := innerHeight st |}.

Definition setBsContextMenuTrigger (v : gmap handle handle) (st : State) : State :=
  {| activeMenu := activeMenu st;
     lastRightClickedElement := lastRightClickedElement st;
     showClass := showClass st; ariaExpanded := ariaExpanded st;
     styleLeft := styleLeft st; styleTop := styleTop st;
     bsContextMenuTrigger := v;
     activeElement := activeElement st; dispatched := dispatched st;
     frameRequests := frameRequests st;
     innerWidth := innerWidth st; innerHeight := innerHeight st |}.

Definition setActiveElement (v : handle) (st : State) : State :=
  {| activeMenu := activeMenu st;
     lastRightClickedElement := lastRightClickedElement st;
     showClass := showClass st; ariaExpanded := ariaExpanded st;
     styleLeft := styleLeft st; styleTop := styleTop st;
     bsContextMenuTrigger := bsContextMenuTrigger st;
     activeElement := v; dispatched := dispatched st;
     frameRequests := frameRequests st;
     innerWidth := innerWidth st; innerHeight := innerHeight st |}.

Definition setDispatched (v : list Notification) (st : State) : State :=
  {| activeMenu := activeMenu st;
     lastRightClickedElement := lastRightClickedElement st;
     showClass := showClass st; ariaExpanded := ariaExpanded st;
     styleLeft := styleLeft st; styleTop := styleTop st;
     bsContextMenuTrigger := bsContextMenuTrigger st;
     activeElement := activeElement st; dispatched := v;
     frameRequests := frameRequests st;
     innerWidth := innerWidth st; innerHeight := innerHeight st |}.

Definition setFrameRequests (v : list (handle * Z * Z)) (st : State) : State :=
  {| activeMenu := activeMenu st;
     lastRightClickedElement := lastRightClickedElement st;
     showClass := showClass st; ariaExpanded := ariaExpanded st;
     styleLeft := styleLeft st; styleTop := styleTop st;
     bsContextMenuTrigger := bsContextMenuTrigger st;
     activeElement := activeElement st; dispatched := dispatched st;
     frameRequests := v;
     innerWidth := innerWidth st; innerHeight := innerHeight st |}.

Definition setViewport (w h : Z) (st : State) : State :=
  {| activeMenu := activeMenu st;
     lastRightClickedElement := lastRightClickedElement st;
     showClass := showClass st; ariaExpanded := ariaExpanded st;
     styleLeft := styleLeft st; styleTop := styleTop st;
     bsContextMenuTrigger := bsContextMenuTrigger st;
     activeElement := activeElement st; dispatched := dispatched st;
     frameRequests := frameRequests st;
     innerWidth := w; innerHeight := h |}.

(** The state when the script has run [init]: nothing open, nothing
    remembered, focus on the body. *)
Definition initial (w h : Z) : State :=
  {| activeMenu := None; lastRightClickedElement := None;
     showClass := ∅; ariaExpanded := ∅; styleLeft := ∅; styleTop := ∅;
     bsContextMenuTrigger := ∅; activeElement := body; dispatched := [];
     frameRequests := []; innerWidth := w; innerHeight := h |}.

(** ** What the browser does *)

(** The injected style sheet gives every [.context-menu] element
    [display: none] and every [.context-menu.show] element
    [display: block]; an element is rendered when no ancestor-or-self is
    a menu without the [show] class. *)
Fixpoint displayed (shown : gset handle) (h : handle) : bool :=
  (negb (classListContains CONTEXT_MENU_CLASS h) || bool_decide (h ∈ shown))
  && match h with
     | [] => true
     | _ :: parent => displayed shown parent
     end.

(** [el.getBoundingClientRect()], width and height only: an element that
    is not rendered has an empty rectangle. *)
Definition getBoundingClientRect (h : handle) (st : State) : Z * Z :=
  match elementAt h with
  | Some e => if displayed (showClass st) h then box e else (0, 0)
  | None => (0, 0)
  end.

(** [el.focus()]: focus moves only to a rendered focusable area. *)
Definition canFocus (h : handle) (st : State) : bool :=
  match elementAt h with Some e => focusable e | None => false end
  && displayed (showClass st) h.

Definition focus (h : handle) (st : State) : State :=
  if canFocus h st then setActiveElement h st else st.

(** [el.dispatchEvent(new CustomEvent(...))]; listeners are the page's. *)
Definition dispatchEvent (n : Notification) (st : State) : State :=
  setDispatched (dispatched st ++ [n]) st.

(** ** Events *)

Record Event := {
  target : handle;
  clientX : Z;
  clientY : Z;
  key : string;
  shiftKey : bool;
  defaultPrevented : bool;
  propagationStopped : bool
}.

Definition preventDefault (ev : Event) : Event :=
  {| target := target ev; clientX := clientX ev; clientY := clientY ev;
     key := key ev; shiftKey := shiftKey ev;
     defaultPrevented := true;
     propagationStopped := propagationStopped ev |}.

Definition stopPropagation (ev : Event) : Event :=
  {| target := target ev; clientX := clientX ev; clientY := clientY ev;
     key := key ev; shiftKey := shiftKey ev;
     defaultPrevented := defaultPrevented ev;
     propagationStopped := true |}.

(** A freshly created event: nothing prevented, nothing stopped. *)
Definition mouseEvent (t : handle) (x y : Z) : Event :=
  {| target := t; clientX := x; clientY := y; key := ""; shiftKey := false;
     defaultPrevented := false; propagationStopped := false |}.

Definition keyboardEvent (t : handle) (k : string) (shift : bool) : Event :=
  {| target := t; clientX := 0; clientY := 0; key := k; shiftKey := shift;
     defaultPrevented := false; propagationStopped := false |}.

(** ** The functions of the source *)

(** The arithmetic of [adjustMenuPosition]: viewport, measured size and
    anchor to the corrected anchor. *)
Definition adjustedPosition (viewportWidth viewportHeight width height x y : Z)
  : Z * Z :=
  let newX := if x + width >? viewportWidth
              then Z.max 0 (viewportWidth - width - 5) else x in
  let newY := if y + height >? viewportHeight
              then Z.max 0 (viewportHeight - height - 5) else y in
  (newX, newY).

Definition adjustMenuPosition (menu : handle) (x y : Z) (st : State) : State :=
  let rect := getBoundingClientRect menu st in
  let new := adjustedPosition (innerWidth st) (innerHeight st) rect.1 rect.2 x y in
  setStyle (<[menu := new.1]> (styleLeft st)) (<[menu := new.2]> (styleTop st)) st.

(** The callback [showMenu] passes to [requestAnimationFrame]. *)
Definition frameCallback (menu : handle) (x y : Z) (st : State) : State :=
  let st := adjustMenuPosition menu x y st in
  match querySelector ENABLED_ITEM menu with
  | Some firstItem => focus firstItem st
  | None => st
  end.

Definition requestAnimationFrame (cb : handle * Z * Z) (st : State) : State :=
  setFrameRequests (frameRequests st ++ [cb]) st.

Definition showMenu (menu : handle) (x y : Z) (trigger : handle) (st : State)
  : State :=
  let st := setActiveMenu (Some menu) st in
  let st := setAriaExpanded (<[trigger := true]> (ariaExpanded st)) st in
  let st := setStyle (<[menu := x]> (styleLeft st)) (<[menu := y]> (styleTop st)) st in
  let st := setShowClass ({[menu]} ∪ showClass st) st in
  let st := setBsContextMenuTrigger (<[menu := trigger]> (bsContextMenuTrigger st)) st in
  let st := requestAnimationFrame (menu, x, y) st in
  dispatchEvent (ShowNotification menu trigger x y) st.

Definition hideActiveMenu (st : State) : State :=
  match activeMenu st with
  | None => st
  | Some menu =>
      let trigger := bsContextMenuTrigger st !! menu in
      let st := match trigger with
                | Some t =>
                    focus t (setAriaExpanded (<[t := false]> (ariaExpanded st)) st)
                | None => st
                end in
      let st := setShowClass (showClass st ∖ {[menu]}) st in
      let st := dispatchEvent (HideNotification menu trigger) st in
      let st := setBsContextMenuTrigger (delete menu (bsContextMenuTrigger st)) st in
      setActiveMenu None st
  end.

Definition handleContextMenu (event : Event) (st : State) : Event * State :=
  match closest TRIGGER (target event) with
  | None => (event, setLastRightClickedElement None st)
  | Some trigger =>
      match getAttribute CONTEXT_MENU_ATTR trigger with
      | None => (event, st)
      | Some menuId =>
          if decide (menuId = "") then (event, st)
          else
            match getElementById menuId with
            | None => (event, st)
            | Some menu =>
                if negb (classListContains CONTEXT_MENU_CLASS menu)
                then (event, st)
                else if decide (lastRightClickedElement st = Some trigger)
                then (event, hideActiveMenu (setLastRightClickedElement None st))
                else
                  let st := setLastRightClickedElement (Some trigger) st in
                  let event := stopPropagation (preventDefault event) in
                  let st := hideActiveMenu st in
                  (event, showMenu menu (clientX event) (clientY event) trigger st)
            end
      end
  end.

Definition handleClickOutside (event : Event) (st : State) : Event * State :=
  match activeMenu st with
  | None => (event, st)
  | Some menu =>
      if contains menu (target event) then
        match closest ITEM (target event) with
        | Some _ =>
            (preventDefault event,
             hideActiveMenu (setLastRightClickedElement None st))
        | None => (event, st)
        end
      else (event, hideActiveMenu (setLastRightClickedElement None st))
  end.

(** [items.indexOf(x)] *)
Fixpoint indexOf (items : list handle) (x : handle) : Z :=
  match items with
  | [] => -1
  | y :: items' =>
      if decide (y = x) then 0
      else let i := indexOf items' x in if i =? -1 then -1 else i + 1
  end.

(** [items[i]], [undefined] outside the array. *)
Definition item (items : list handle) (i : Z) : option handle :=
  if i <? 0 then None else items !! Z.to_nat i.

(** The element [focusNextItem] calls [focus] on, if any; [%] is
    JavaScript's remainder, which takes the sign of the dividend. *)
Definition nextItem (direction : Z) (st : State) : option handle :=
  match activeMenu st with
  | None => None
  | Some menu =>
      let items := querySelectorAll ENABLED_ITEM menu in
      let len := Z.of_nat (length items) in
      if len =? 0 then None
      else
        let currentIndex := indexOf items (activeElement st) in
        let nextIndex :=
          if currentIndex =? -1
          then (if direction =? 1 then 0 else len - 1)
          else Z.rem (currentIndex + direction + len) len in
        item items nextIndex
  end.

Definition focusNextItem (direction : Z) (st : State) : State :=
  match nextItem direction st with
  | Some it => focus it st
  | None => st
  end.

(** [el.click()]: a click event on [el] reaches the document listener; a
    disabled form control dispatches nothing. *)
Definition click (el : handle) (st : State) : State :=
  if matchesAt SelDisabled el then st
  else (handleClickOutside (mouseEvent el 0 0) st).2.

Definition handleKeyDown (event : Event) (st : State) : Event * State :=
  match activeMenu st with
  | None => (event, st)
  | Some _ =>
      if decide (key event = "Escape") then
        (preventDefault event, hideActiveMenu st)
      else if decide (key event = "ArrowDown") then
        (preventDefault event, focusNextItem 1 st)
      else if decide (key event = "ArrowUp") then
        (preventDefault event, focusNextItem (-1) st)
      else if decide (key event = "Enter" ∨ key event = " ") then
        if classListContains "dropdown-item" (activeElement st)
        then (preventDefault event, click (activeElement st) st)
        else (event, st)
      else if decide (key event = "Tab") then
        (preventDefault event,
         focusNextItem (if shiftKey event then -1 else 1) st)
      else (event, st)
  end.

(** ** The public API and the listeners [init] installs *)

(** [BSContextMenu.show(menuOrId, x, y, trigger = null)] *)
Definition show (menuOrId : handle + string) (x y : Z) (trigger : option handle)
    (st : State) : State :=
  let menu := match menuOrId with
              | inl el => Some el
              | inr id => getElementById id
              end in
  match menu with
  | Some menu =>
      if classListContains CONTEXT_MENU_CLASS menu
      then showMenu menu x y (default body trigger) (hideActiveMenu st)
      else st
  | None => st
  end.

(** [BSContextMenu.hide()] *)
Definition hide (st : State) : State := hideActiveMenu st.

(** [BSContextMenu.getActiveMenu()] *)
Definition getActiveMenu (st : State) : option handle := activeMenu st.

(** The browser runs the pending animation-frame callbacks in order. *)
Definition animationFrame (st : State) : State :=
  foldl (λ st cb, frameCallback cb.1.1 cb.1.2 cb.2 st)
        (setFrameRequests [] st) (frameRequests st).

(** Everything that can happen to the page once [init] has run. *)
Inductive Input :=
| ContextMenu (event : Event)
| Click (event : Event)
| KeyDown (event : Event)
| Scroll
| Resize (width height : Z)
| AnimationFrame
| ApiShow (menuOrId : handle + string) (x y : Z) (trigger : option handle)
| ApiHide.

(** [init]: contextmenu, click and keydown go to their handlers, scroll
    and resize go to [hideActiveMenu]. *)
Definition step (i : Input) (st : State) : State :=
  match i with
  | ContextMenu event => (handleContextMenu event st).2
  | Click event => (handleClickOutside event st).2
  | KeyDown event => (handleKeyDown event st).2
  | Scroll => hideActiveMenu st
  | Resize w h => hideActiveMenu (setViewport w h st)
  | AnimationFrame => animationFrame st
  | ApiShow menuOrId x y trigger => show menuOrId x y trigger st
  | ApiHide => hide st
  end.

Definition run (inputs : list Input) (st : State) : State :=
  foldl (λ st i, step i st) st inputs.

End Document.

(** ** A sample page

    A button and an image bound to menu [m1]; the menu has a header, a
    plain link, a disabled item, a divider and a second enabled item. *)
Module Sample.

Definition el (tag : string) (attrs : list (string * string))
    (cls : list string) (foc : bool) (size : Z * Z) : Element :=
  {| tagName := tag; attributes := attrs; classes := cls;
     matchesDisabled := false; focusable := foc; box := size |}.

Definition li (n : Node) : Node := Nd (el "LI" [] [] false (150, 30)) [n].

Definition page : Node :=
  Nd (el "BODY" [] [] false (1000, 800))
    [ Nd (el "BUTTON" [("id", "btn"); (CONTEXT_MENU_ATTR, "m1")] [] true (80, 30)) [];
      Nd (el "DIV" [("id", "m1")] [CONTEXT_MENU_CLASS] false (150, 120))
        [ Nd (el "UL" [] [] false (150, 120))
            [ li (Nd (el "SPAN" [] ["dropdown-header"] false (150, 30)) []);
              li (Nd (el "A" [("href", "https://example.com/")]
                        ["dropdown-item"] true (150, 30)) []);
              li (Nd (el "A" [("href", "#")]
                        ["dropdown-item"; "disabled"] true (150, 30)) []);
              li (Nd (el "HR" [] ["dropdown-divider"] false (150, 1)) []);
              li (Nd (el "A" [("href", "#")] ["dropdown-item"] true (150, 30)) []) ] ];
      Nd (el "P" [] [] false (1000, 20)) [];
      Nd (el "IMG" [("id", "pic"); (CONTEXT_MENU_ATTR, "m1")] [] true (200, 100)) [] ].

Definition btn : handle := [0%nat].
Definition m1 : handle := [1%nat].
Definition header : handle := [0; 0; 0; 1]%nat.
Definition link : handle := [0; 1; 0; 1]%nat.
Definition disabledItem : handle := [0; 2; 0; 1]%nat.
Definition lastItem : handle := [0; 4; 0; 1]%nat.
Definition paragraph : handle := [2%nat].
Definition pic : handle := [3%nat].

(** A 1000 by 800 viewport, [init] just run. *)
Definition start : State := initial 1000 800.

(** The menu opened by a secondary click on the button at (100, 50). *)
Definition opened : State :=
  (handleContextMenu page (mouseEvent btn 100 50) start).2.

End Sample.

(** ** Invariants *)

(** The part of the state that decides what the handlers do next; the
    animation-frame callbacks only write styles and move focus. *)
Definition sameMenuState (st st' : State) : Prop :=
  activeMenu st' = activeMenu st
  ∧ lastRightClickedElement st' = lastRightClickedElement st
  ∧ showClass st' = showClass st
  ∧ ariaExpanded st' = ariaExpanded st
  ∧ bsContextMenuTrigger st' = bsContextMenuTrigger st
  ∧ dispatched st' = dispatched st
  ∧ innerWidth st' = innerWidth st
  ∧ innerHeight st' = innerHeight st.

(** Only the active menu carries the [show] class. *)
Definition shownIsActive (st : State) : Prop :=
  ∀ menu, menu ∈ showClass st → activeMenu st = Some menu.

(** Every pending animation-frame callback was scheduled for an element
    carrying the menu class. *)
Definition pendingValid (doc : Node) (st : State) : Prop :=
  ∀ menu x y, (menu, x, y) ∈ frameRequests st →
    classListContains doc CONTEXT_MENU_CLASS menu = true.

(** The states the page can be in. *)
Definition reachable (doc : Node) (st : State) : Prop :=
  ∃ w h inputs, st = run doc inputs (initial w h).

(** ** The trigger scan *)

(** The [tabindex] attributes the script has set, over those of the markup. *)
Definition nativelyFocusable : list string :=
  ["A"; "BUTTON"; "INPUT"; "SELECT"; "TEXTAREA"]%string.

(** [document.querySelectorAll(s)], in document order. *)
Definition documentQuerySelectorAll (doc : Node) (s : selector) : list handle :=
  (filter (λ he, matches s he.2 = true)
     ((body, element doc) :: descendants body doc)).*1.

(** [el.hasAttribute('tabindex')] *)
Definition hasTabindex (doc : Node) (tabindex : gmap handle string) (h : handle)
  : bool :=
  matchesAt doc (SelAttr "tabindex") h || bool_decide (is_Some (tabindex !! h)).

(** [nativelyFocusable.includes(el.tagName) &&
     (el.tagName !== 'A' || el.hasAttribute('href'))] *)
Definition isNativelyFocusable (doc : Node) (h : handle) : bool :=
  match elementAt doc h with
  | Some e =>
      bool_decide (tagName e ∈ nativelyFocusable)
      && (negb (bool_decide (tagName e = "A"%string)) || matches (SelAttr "href") e)
  | None => false
  end.

(** The body of the [forEach] in [ensureTriggersAreFocusable]. *)
Definition makeFocusable (doc : Node) (tabindex : gmap handle string)
    (trigger : handle) : gmap handle string :=
  if hasTabindex doc tabindex trigger then tabindex
  else if isNativelyFocusable doc trigger then tabindex
  else <[trigger := "0"%string]> tabindex.

Definition ensureTriggersAreFocusable (doc : Node) (tabindex : gmap handle string)
  : gmap handle string :=
  foldl (makeFocusable doc) tabindex (documentQuerySelectorAll doc TRIGGER).

(** [BSContextMenu.refresh()] *)
Definition refresh (doc : Node) (tabindex : gmap handle string)
  : gmap handle string :=
  ensureTriggersAreFocusable doc tabindex.

(** A page for the scan: a [div] trigger, a button trigger, an anchor
    trigger without [href], an anchor trigger with [href], a [span] trigger
    that already has a [tabindex], and a paragraph that is no trigger. *)
Module Triggers.

Definition page : Node :=
  Nd (Sample.el "BODY" [] [] false (1000, 800))
    [ Nd (Sample.el "DIV" [(CONTEXT_MENU_ATTR, "m1")] [] false (100, 20)) [];
      Nd (Sample.el "BUTTON" [(CONTEXT_MENU_ATTR, "m1")] [] true (80, 30)) [];
      Nd (Sample.el "A" [(CONTEXT_MENU_ATTR, "m1")] [] false (80, 20)) [];
      Nd (Sample.el "A" [("href", "/docs"); (CONTEXT_MENU_ATTR, "m1")] [] true
            (80, 20)) [];
      Nd (Sample.el "SPAN" [("tabindex", "-1"); (CONTEXT_MENU_ATTR, "m1")] []
            true (80, 20)) [];
      Nd (Sample.el "P" [] [] false (1000, 20)) [] ]%string.

Definition div : handle := [0%nat].
Definition button : handle := [1%nat].
Definition bareAnchor : handle := [2%nat].
Definition anchor : handle := [3%nat].
Definition span : handle := [4%nat].
Definition paragraph : handle := [5%nat].

End Triggers.

(** ** The demo's accessor *)

(** [ContextMenuActions.getTrigger()] of the minimal demo:
    [BSContextMenu.getActiveMenu()._bsContextMenuTrigger].  The outer [None]
    is the [TypeError] of reading a property of [null], the inner one a
    property that is not set. *)
Definition getTrigger (st : State) : option (option handle) :=
  menu ← getActiveMenu st; Some (bsContextMenuTrigger st !! menu).

(** ** The life cycle seen by a listener *)

(** The open menu with its trigger. *)
Definition openPair (st : State) : option (handle * handle) :=
  menu ← activeMenu st;
  trigger ← bsContextMenuTrigger st !! menu;
  Some (menu, trigger).

(** One notification, read by a listener that tracks what is open: a
    [show] is expected only while nothing is open, a [hide] only for the
    menu and trigger of the [show] before it. *)
Definition lifecycle (cur : option (handle * handle)) (n : Notification)
  : option (option (handle * handle)) :=
  match n, cur with
  | ShowNotification menu trigger _ _, None => Some (Some (menu, trigger))
  | HideNotification menu (Some trigger), Some open =>
      if decide (open = (menu, trigger)) then Some None else None
  | _, _ => None
  end.

Definition replay (log : list Notification) : option (option (handle * handle)) :=
  foldl (λ acc n, cur ← acc; lifecycle cur n) (Some None) log.

(** The slots, the classes, the flags and the notifications agree. *)
Definition consistent (doc : Node) (st : State) : Prop :=
  match activeMenu st with
  | Some menu =>
      classListContains doc CONTEXT_MENU_CLASS menu = true
      ∧ showClass st = {[menu]}
      ∧ ∃ trigger,
          bsContextMenuTrigger st = {[menu := trigger]}
          ∧ ∀ el, ariaExpanded st !! el = Some true ↔ el = trigger
  | None =>
      showClass st = ∅
      ∧ bsContextMenuTrigger st = ∅
      ∧ ∀ el, ariaExpanded st !! el ≠ Some true
  end
  ∧ replay (dispatched st) = Some (openPair st).

(** ** The expanded flag as the page sees it *)

(** [el.getAttribute('aria-expanded')]: what the script wrote last, or else
    what the markup says. *)
Definition getAriaExpanded (doc : Node) (st : State) (el : handle)
  : option string :=
  match ariaExpanded st !! el with
  | Some true => Some "true"%string
  | Some false => Some "false"%string
  | None => getAttribute doc "aria-expanded" el
  end.

(** A page with a trigger whose markup says collapsed, its menu, and an
    unrelated toggle that the markup shows expanded. *)
Module Widgets.

Definition page : Node :=
  Nd (Sample.el "BODY" [] [] false (1000, 800))
    [ Nd (Sample.el "BUTTON"
            [("id", "t"); (CONTEXT_MENU_ATTR, "m1"); ("aria-expanded", "false")]
            [] true (80, 30)) [];
      Nd (Sample.el "DIV" [("id", "m1")] [CONTEXT_MENU_CLASS] false (150, 60))
        [ Nd (Sample.el "A" [("href", "#")] ["dropdown-item"] true (150, 30)) [] ];
      Nd (Sample.el "BUTTON" [("id", "dd"); ("aria-expanded", "true")]
            ["dropdown-toggle"] true (80, 30)) [];
      Nd (Sample.el "DIV" [("id", "")] [CONTEXT_MENU_CLASS] false (150, 60)) [] ]%string.

Definition trigger : handle := [0%nat].
Definition menu : handle := [1%nat].
Definition toggle : handle := [2%nat].
Definition unnamed : handle := [3%nat].

(** The trigger's menu opened at (10, 10). *)
Definition opened : State :=
  (handleContextMenu page (mouseEvent trigger 10 10) (initial 1000 800)).2.

End Widgets.

Example sample_getElementById : getElementById Sample.page "m1" = Some Sample.m1.
Proof. reflexivity. Qed.

Example sample_items :
  querySelectorAll Sample.page ENABLED_ITEM Sample.m1 = [Sample.link; Sample.lastItem].
Proof. reflexivity. Qed.

Example sample_opened :
  activeMenu Sample.opened = Some Sample.m1
  ∧ bsContextMenuTrigger Sample.opened !! Sample.m1 = Some Sample.btn
  ∧ dispatched Sample.opened = [ShowNotification Sample.m1 Sample.btn 100 50]
  ∧ activeElement (animationFrame Sample.page Sample.opened) = Sample.link.
Proof. vm_compute. auto. Qed.

(** ** The document tree *)

Local Close Scope string_scope.

Lemma Node_ind (P : Node → Prop) :
  (∀ e cs, Forall P cs → P (Nd e cs)) → ∀ n, P n.
Proof.
  intros H. fix IH 1. intros [e cs]. apply H.
  induction cs as [|c cs IHcs]; constructor; [apply IH | exact IHcs].
Qed.

Lemma descendants_kids h e cs : descendants h (Nd e cs) = kids h 0 cs.
Proof.
  simpl. generalize 0%nat.
  induction cs as [|c cs IH]; intros i; simpl; [done|]. by rewrite IH.
Qed.

(** Every handle below [h] extends [h] by at least one child index. *)
Lemma descendants_below n : ∀ h x,
  x ∈ (descendants h n).*1 → ∃ k i, x = k ++ i :: h.
Proof.
  induction n as [e cs IH] using Node_ind. intros h x.
  rewrite descendants_kids. generalize 0%nat.
  induction cs as [|c cs IHcs]; intros i; simpl; [by intros ?%elem_of_nil|].
  apply Forall_cons in IH as [IHc IH].
  rewrite fmap_app, elem_of_cons, elem_of_app. intros [->|[Hx|Hx]].
  - by exists [], i.
  - apply IHc in Hx as (k & j & ->). exists (k ++ [j]), i. by rewrite <-app_assoc.
  - by apply (IHcs IH (S i)).
Qed.

Lemma kids_below h cs : ∀ i x,
  x ∈ (kids h i cs).*1 → ∃ k j, x = k ++ j :: h ∧ (i ≤ j)%nat.
Proof.
  induction cs as [|c cs IH]; intros i x; simpl; [by intros ?%elem_of_nil|].
  rewrite fmap_app, elem_of_cons, elem_of_app. intros [->|[Hx|Hx]].
  - by exists [], i.
  - apply descendants_below in Hx as (k & j & ->).
    exists (k ++ [j]), i. by rewrite <-app_assoc.
  - apply IH in Hx as (k & j & -> & ?). exists k, j. split; [done|lia].
Qed.

Lemma handle_not_below (h : handle) k i : h ≠ k ++ i :: h.
Proof.
  intros H. apply (f_equal length) in H. rewrite length_app in H. simpl in H. lia.
Qed.

Lemma handle_below_inj (h : handle) k i k' j :
  k ++ i :: h = k' ++ j :: h → i = j.
Proof.
  intros H. change (k ++ [i] ++ h = k' ++ [j] ++ h) in H.
  rewrite !app_assoc in H. apply app_inv_tail in H.
  by apply app_inj_tail in H as [_ ?].
Qed.

(** No element is listed twice. *)
Lemma descendants_NoDup n : ∀ h, NoDup (descendants h n).*1.
Proof.
  induction n as [e cs IH] using Node_ind. intros h.
  rewrite descendants_kids. generalize 0%nat.
  induction cs as [|c cs IHcs]; intros i; simpl; [constructor|].
  apply Forall_cons in IH as [IHc IH].
  rewrite fmap_app. apply NoDup_cons. split.
  - rewrite elem_of_app. intros [Hx|Hx].
    + apply descendants_below in Hx as (k & j & Hx).
      by apply handle_not_below in Hx.
    + apply kids_below in Hx as (k & j & Hx & ?).
      apply (handle_below_inj h [] i k j) in Hx. lia.
  - apply NoDup_app. split; [apply IHc|]. split; [|by apply IHcs].
    intros x Hx Hx'.
    apply descendants_below in Hx as (k & j & ->).
    apply kids_below in Hx' as (k' & j' & Hx' & ?).
    assert (i = j') as ->; [|lia].
    apply (handle_below_inj h (k ++ [j]) i k' j'). by rewrite <-app_assoc.
Qed.

Lemma querySelectorAll_NoDup doc s root : NoDup (querySelectorAll doc s root).
Proof.
  unfold querySelectorAll. destruct (nodeAt doc root) as [n|]; [|constructor].
  eapply sublist_NoDup; [apply (descendants_NoDup n root)|].
  apply fmap_sublist, sublist_filter.
Qed.

Lemma descend_app n p q :
  descend n (p ++ q) = descend n p ≫= λ m, descend m q.
Proof.
  revert n. induction p as [|i p IH]; intros n; simpl; [done|].
  destruct (childNodes n !! i); simpl; [apply IH|done].
Qed.

Lemma kids_lookup h cs : ∀ i x e,
  (x, e) ∈ kids h i cs →
  ∃ j c, cs !! j = Some c
    ∧ ((x = (i + j)%nat :: h ∧ e = element c)
       ∨ (x, e) ∈ descendants ((i + j)%nat :: h) c).
Proof.
  induction cs as [|c cs IH]; intros i x e; simpl; [by intros ?%elem_of_nil|].
  rewrite elem_of_cons, elem_of_app. intros [[= -> ->]|[Hx|Hx]].
  - exists 0%nat, c. rewrite Nat.add_0_r. auto.
  - exists 0%nat, c. rewrite Nat.add_0_r. auto.
  - apply IH in Hx as (j & c' & Hj & Hx). exists (S j), c'.
    by rewrite Nat.add_succ_r.
Qed.

(** The element listed with a handle is the one found by walking down. *)
Lemma descendants_descend n : ∀ h x e,
  (x, e) ∈ descendants h n →
  ∃ path, x = rev path ++ h ∧ element <$> descend n path = Some e.
Proof.
  induction n as [e0 cs IH] using Node_ind. intros h x e.
  rewrite descendants_kids. intros (j & c & Hj & Hx)%kids_lookup.
  rewrite Forall_forall in IH. simpl in Hx.
  destruct Hx as [[-> ->]|Hx].
  - exists [j]. simpl. by rewrite Hj.
  - apply IH in Hx as (path & -> & He); [|by eapply list_elem_of_lookup_2].
    exists (j :: path). simpl. rewrite Hj. split; [|done].
    by rewrite <-app_assoc.
Qed.

Lemma querySelectorAll_spec doc s root x :
  x ∈ querySelectorAll doc s root →
  matchesAt doc s x = true ∧ ∃ k i, x = k ++ i :: root.
Proof.
  unfold querySelectorAll.
  destruct (nodeAt doc root) as [n|] eqn:Hn; [|by intros ?%elem_of_nil].
  intros ([x' e] & -> & [Hm Hx]%list_elem_of_filter)%list_elem_of_fmap.
  simpl in *. split.
  - apply descendants_descend in Hx as (path & -> & He).
    unfold matchesAt, elementAt, nodeAt.
    rewrite rev_app_distr, rev_involutive, descend_app.
    unfold nodeAt in Hn. rewrite Hn. simpl. by rewrite He.
  - apply (descendants_below n root).
    apply list_elem_of_fmap. by exists (x', e).
Qed.

Lemma contains_below (a : handle) k : contains a (k ++ a) = true.
Proof.
  induction k as [|i k IH]; cbn [app contains].
  - destruct a; cbn [contains]; by case_decide.
  - case_decide; [done|exact IH].
Qed.

(** What is inside an element that is not rendered is not rendered. *)
Lemma displayed_below doc shown (h : handle) k :
  displayed doc shown (k ++ h) = true → displayed doc shown h = true.
Proof.
  induction k as [|i k IH]; simpl; [done|].
  intros [_ ?]%andb_true_iff. auto.
Qed.

Lemma hidden_menu_not_displayed doc shown menu :
  classListContains doc CONTEXT_MENU_CLASS menu = true → menu ∉ shown →
  displayed doc shown menu = false.
Proof.
  intros Hc Hs. destruct menu; simpl; rewrite Hc, bool_decide_false; done.
Qed.

(** ** Geometry *)

Lemma adjustedPosition_x vw vh w h x y :
  (adjustedPosition vw vh w h x y).1
  = if x + w >? vw then Z.max 0 (vw - w - 5) else x.
Proof. reflexivity. Qed.

Lemma adjustedPosition_y vw vh w h x y :
  (adjustedPosition vw vh w h x y).2
  = if y + h >? vh then Z.max 0 (vh - h - 5) else y.
Proof. reflexivity. Qed.

(** C5, as the claim states it, fails: a box wider than the viewport
    overflows from every anchor, the corrected coordinate is 0 and the right
    edge stays beyond the viewport. *)
Lemma C5_counterexample :
  let p := adjustedPosition 1000 800 1200 100 10 10 in
  10 + 1200 > 1000 ∧ ¬ (p.1 + 1200 <= 1000) ∧ p.1 + 1200 ≠ 1000 - 5.
Proof. vm_compute. repeat split; congruence. Qed.

(** C5 (amended): on an axis where the box overflows, the corrected
    coordinate is [max 0 (viewport - size - 5)], hence never negative; when
    the box and the 5-unit inset fit in the viewport the far edge ends
    exactly 5 units inside it, otherwise the coordinate is 0.  Anchor 990,
    width 150, viewport 1000 gives 845. *)
Theorem C5_adjustedPosition_overflow vw vh w h x y :
  let p := adjustedPosition vw vh w h x y in
  (x + w > vw →
     p.1 = Z.max 0 (vw - w - 5) ∧ 0 <= p.1
     ∧ (w + 5 <= vw → p.1 = vw - w - 5 ∧ p.1 + w = vw - 5 ∧ p.1 + w <= vw)
     ∧ (vw < w + 5 → p.1 = 0))
  ∧ (y + h > vh →
     p.2 = Z.max 0 (vh - h - 5) ∧ 0 <= p.2
     ∧ (h + 5 <= vh → p.2 = vh - h - 5 ∧ p.2 + h = vh - 5 ∧ p.2 + h <= vh)
     ∧ (vh < h + 5 → p.2 = 0))
  ∧ (adjustedPosition 1000 vh 150 h 990 y).1 = 845.
Proof.
  intros p. subst p. rewrite adjustedPosition_x, adjustedPosition_y.
  split; [|split; [|reflexivity]].
  - intros Hov. destruct (Z.gtb_spec (x + w) vw); [|lia]. lia.
  - intros Hov. destruct (Z.gtb_spec (y + h) vh); [|lia]. lia.
Qed.

Lemma C5_witness :
  (990 + 150 > 1000 ∧ 150 + 5 <= 1000
   ∧ (adjustedPosition 1000 800 150 100 990 10).1 = 1000 - 150 - 5)
  ∧ (750 + 100 > 800 ∧ 100 + 5 <= 800
     ∧ (adjustedPosition 1000 800 150 100 990 750).2 = 800 - 100 - 5)
  ∧ (10 + 1200 > 1000 ∧ 1000 < 1200 + 5
     ∧ (adjustedPosition 1000 800 1200 900 10 10).1 = 0)
  ∧ (10 + 900 > 800 ∧ 800 < 900 + 5
     ∧ (adjustedPosition 1000 800 1200 900 10 10).2 = 0).
Proof.
  pose proof (C5_adjustedPosition_overflow 1000 800 150 100 990 10) as [Hx _].
  pose proof (C5_adjustedPosition_overflow 1000 800 150 100 990 750) as [_ [Hy _]].
  pose proof (C5_adjustedPosition_overflow 1000 800 1200 900 10 10) as [Hx' [Hy' _]].
  destruct Hx as (_ & _ & Hx & _); [lia|]. destruct Hx as [Hx _]; [lia|].
  destruct Hy as (_ & _ & Hy & _); [lia|]. destruct Hy as [Hy _]; [lia|].
  destruct Hx' as (_ & _ & _ & Hx'); [lia|].
  destruct Hy' as (_ & _ & _ & Hy'); [lia|].
  split; [split; [lia|split; [lia|exact Hx]]|].
  split; [split; [lia|split; [lia|exact Hy]]|].
  split; (split; [lia|split; [lia|]]); [apply Hx'|apply Hy']; lia.
Defined.

(** C6, as the claim states it, fails: with a measured size of zero an
    anchor beyond the viewport is still moved to 5 units inside it. *)
Lemma C6_counterexample :
  adjustedPosition 1000 800 0 0 2000 10 ≠ (2000, 10).
Proof. vm_compute. congruence. Qed.

(** C6 (amended): an axis on which the box fits from the anchor is left
    alone, so a box that fits on both axes keeps its anchor; with a measured
    size of zero the anchor is kept when it lies within the viewport, and
    [adjustMenuPosition] then writes the anchor back as left and top. *)
Theorem C6_adjustedPosition_fits doc vw vh w h x y :
  let p := adjustedPosition vw vh w h x y in
  (x + w <= vw → p.1 = x)
  ∧ (y + h <= vh → p.2 = y)
  ∧ (x + w <= vw → y + h <= vh → p = (x, y))
  ∧ (x <= vw → y <= vh → adjustedPosition vw vh 0 0 x y = (x, y))
  ∧ (∀ menu st,
       getBoundingClientRect doc menu st = (0, 0) →
       x <= innerWidth st → y <= innerHeight st →
       adjustMenuPosition doc menu x y st
       = setStyle (<[menu := x]> (styleLeft st)) (<[menu := y]> (styleTop st)) st).
Proof.
  intros p. subst p.
  assert (Hfit : ∀ vw vh w h x y, x + w <= vw → y + h <= vh →
                   adjustedPosition vw vh w h x y = (x, y)).
  { clear. intros vw vh w h x y Hx Hy. unfold adjustedPosition.
    destruct (Z.gtb_spec (x + w) vw); [lia|].
    destruct (Z.gtb_spec (y + h) vh); [lia|]. reflexivity. }
  rewrite adjustedPosition_x, adjustedPosition_y. repeat split.
  - intros Hx. destruct (Z.gtb_spec (x + w) vw); [lia|done].
  - intros Hy. destruct (Z.gtb_spec (y + h) vh); [lia|done].
  - apply Hfit.
  - intros Hx Hy. apply Hfit; lia.
  - intros menu st Hrect Hx Hy. unfold adjustMenuPosition.
    rewrite Hrect. cbn [fst snd]. rewrite Hfit by lia. reflexivity.
Qed.

Lemma C6_witness :
  (100 + 150 <= 1000 ∧ 50 + 120 <= 800
   ∧ adjustedPosition 1000 800 150 120 100 50 = (100, 50))
  ∧ adjustedPosition 1000 800 0 0 1000 800 = (1000, 800)
  ∧ (getBoundingClientRect Sample.page Sample.m1 Sample.start = (0, 0)
     ∧ styleLeft (adjustMenuPosition Sample.page Sample.m1 100 50 Sample.start)
       !! Sample.m1 = Some 100).
Proof.
  destruct (C6_adjustedPosition_fits Sample.page 1000 800 150 120 100 50)
    as (Hx & Hy & Hfit & _ & Hzero).
  destruct (C6_adjustedPosition_fits Sample.page 1000 800 150 120 1000 800)
    as (_ & _ & _ & Hedge & _).
  split; [split; [lia|split; [lia|apply Hfit; lia]]|].
  split; [apply Hedge; lia|].
  split; [reflexivity|].
  rewrite (Hzero Sample.m1 Sample.start);
    [reflexivity|reflexivity|vm_compute; discriminate|vm_compute; discriminate].
Defined.

(** ** What [focus] and [hideActiveMenu] leave alone *)

Ltac unfold_focus :=
  unfold focus; match goal with |- context [canFocus ?d ?h ?s] =>
    destruct (canFocus d h s) end.

Lemma focus_cases doc h st :
  focus doc h st = st ∨ focus doc h st = setActiveElement h st.
Proof. unfold_focus; auto. Qed.

Lemma hideActiveMenu_closed doc st :
  activeMenu st = None → hideActiveMenu doc st = st.
Proof. intros H. unfold hideActiveMenu. by rewrite H. Qed.

Lemma hideActiveMenu_activeMenu doc st :
  activeMenu (hideActiveMenu doc st) = None.
Proof.
  unfold hideActiveMenu. destruct (activeMenu st) eqn:H; [reflexivity|exact H].
Qed.

Lemma hideActiveMenu_lastRightClickedElement doc st :
  lastRightClickedElement (hideActiveMenu doc st) = lastRightClickedElement st.
Proof.
  unfold hideActiveMenu. destruct (activeMenu st); [|done].
  destruct (bsContextMenuTrigger st !! _); [|done]. by unfold_focus.
Qed.

Lemma hideActiveMenu_dispatched doc st menu :
  activeMenu st = Some menu →
  dispatched (hideActiveMenu doc st)
  = dispatched st ++ [HideNotification menu (bsContextMenuTrigger st !! menu)].
Proof.
  intros H. unfold hideActiveMenu. rewrite H.
  destruct (bsContextMenuTrigger st !! _); [|done]. by unfold_focus.
Qed.

Lemma hideActiveMenu_showClass doc st menu :
  activeMenu st = Some menu →
  showClass (hideActiveMenu doc st) = showClass st ∖ {[menu]}.
Proof.
  intros H. unfold hideActiveMenu. rewrite H.
  destruct (bsContextMenuTrigger st !! _); [|done]. by unfold_focus.
Qed.

Lemma hideActiveMenu_ariaExpanded doc st menu trigger :
  activeMenu st = Some menu → bsContextMenuTrigger st !! menu = Some trigger →
  ariaExpanded (hideActiveMenu doc st) = <[trigger := false]> (ariaExpanded st).
Proof.
  intros H Ht. unfold hideActiveMenu. rewrite H, Ht. by unfold_focus.
Qed.

Lemma hideActiveMenu_frameRequests doc st :
  frameRequests (hideActiveMenu doc st) = frameRequests st.
Proof.
  unfold hideActiveMenu. destruct (activeMenu st); [|done].
  destruct (bsContextMenuTrigger st !! _); [|done]. by unfold_focus.
Qed.

Lemma hideActiveMenu_viewport doc st :
  innerWidth (hideActiveMenu doc st) = innerWidth st
  ∧ innerHeight (hideActiveMenu doc st) = innerHeight st.
Proof.
  unfold hideActiveMenu. destruct (activeMenu st); [|done].
  destruct (bsContextMenuTrigger st !! _); [|done]. by unfold_focus.
Qed.

(** ** Hiding *)

(** C9: [hide] always ends in the closed state; a second [hide], or a
    [hide] when nothing is open, changes nothing at all, so it dispatches
    no further [hide.bs.contextmenu] event; the one [hide] that closes an
    open menu dispatches exactly one. *)
Theorem C9_hide_idempotent doc st :
  activeMenu (hide doc st) = None
  ∧ hide doc (hide doc st) = hide doc st
  ∧ dispatched (hide doc (hide doc st)) = dispatched (hide doc st)
  ∧ (activeMenu st = None → hide doc st = st)
  ∧ (∀ w h, hide doc (initial w h) = initial w h)
  ∧ (∀ menu, activeMenu st = Some menu →
       dispatched (hide doc st)
       = dispatched st ++ [HideNotification menu (bsContextMenuTrigger st !! menu)]).
Proof.
  unfold hide.
  assert (Hcl : hideActiveMenu doc (hideActiveMenu doc st) = hideActiveMenu doc st)
    by apply hideActiveMenu_closed, hideActiveMenu_activeMenu.
  split; [apply hideActiveMenu_activeMenu|].
  split; [exact Hcl|]. split; [by rewrite Hcl|].
  split; [apply hideActiveMenu_closed|].
  split; [reflexivity|]. intros menu. apply hideActiveMenu_dispatched.
Qed.

Lemma C9_witness :
  (activeMenu Sample.start = None ∧ hide Sample.page Sample.start = Sample.start)
  ∧ (activeMenu Sample.opened = Some Sample.m1
     ∧ dispatched (hide Sample.page Sample.opened)
       = dispatched Sample.opened
         ++ [HideNotification Sample.m1 (Some Sample.btn)]).
Proof.
  destruct (C9_hide_idempotent Sample.page Sample.start) as (_ & _ & _ & H & _).
  destruct (C9_hide_idempotent Sample.page Sample.opened)
    as (_ & _ & _ & _ & _ & H').
  split; [split; [reflexivity|apply H; reflexivity]|].
  split; [reflexivity|]. apply (H' Sample.m1). reflexivity.
Defined.

(** ** Primary clicks *)

(** C10: a click inside the open menu that is not on (or inside) a
    [.dropdown-item] leaves the state and the event as they were: the menu
    stays open, nothing is dispatched, the remembered element is kept. *)
Theorem C10_click_inside_not_on_item doc event st menu :
  activeMenu st = Some menu →
  contains menu (target event) = true →
  closest doc ITEM (target event) = None →
  handleClickOutside doc event st = (event, st)
  ∧ activeMenu (step doc (Click event) st) = Some menu
  ∧ dispatched (step doc (Click event) st) = dispatched st
  ∧ lastRightClickedElement (step doc (Click event) st)
    = lastRightClickedElement st.
Proof.
  intros Hm Hin Hit.
  assert (H : handleClickOutside doc event st = (event, st)).
  { unfold handleClickOutside. by rewrite Hm, Hin, Hit. }
  simpl. rewrite H. auto.
Qed.

Lemma C10_witness :
  handleClickOutside Sample.page (mouseEvent Sample.header 120 60) Sample.opened
  = (mouseEvent Sample.header 120 60, Sample.opened).
Proof.
  apply (C10_click_inside_not_on_item Sample.page
           (mouseEvent Sample.header 120 60) Sample.opened Sample.m1);
    reflexivity.
Defined.

(** C4, as the claim states it, fails: neither link of the sample menu
    has a callback; a click on the one whose [href] is a real address, and
    a click on the one whose [href] is ["#"], both come back from the handler
    with the default action prevented. *)
Lemma C4_counterexample :
  let onLink := mouseEvent Sample.link 120 90 in
  let onLast := mouseEvent Sample.lastItem 120 150 in
  getAttribute Sample.page "href" Sample.link = Some "https://example.com/"%string
  ∧ getAttribute Sample.page "href" Sample.lastItem = Some "#"%string
  ∧ defaultPrevented onLink = false
  ∧ defaultPrevented onLast = false
  ∧ defaultPrevented (handleClickOutside Sample.page onLink Sample.opened).1 = true
  ∧ defaultPrevented (handleClickOutside Sample.page onLast Sample.opened).1 = true.
Proof. vm_compute. repeat split. Qed.

(** C4 (amended): a click on an item inside the open menu clears the
    remembered element and hides the menu, with its one
    [hide.bs.contextmenu] event; the handler does not stop propagation, and
    for an item whose [href] is ["#"] it prevents the default action of the
    click. *)
Theorem C4_click_on_item doc event st menu it :
  activeMenu st = Some menu →
  contains menu (target event) = true →
  closest doc ITEM (target event) = Some it →
  let r := handleClickOutside doc event st in
  r.2 = hideActiveMenu doc (setLastRightClickedElement None st)
  ∧ lastRightClickedElement r.2 = None
  ∧ activeMenu r.2 = None
  ∧ dispatched r.2
    = dispatched st ++ [HideNotification menu (bsContextMenuTrigger st !! menu)]
  ∧ propagationStopped r.1 = propagationStopped event
  ∧ (getAttribute doc "href" it = Some "#"%string → defaultPrevented r.1 = true).
Proof.
  intros Hm Hin Hit r. subst r. unfold handleClickOutside.
  rewrite Hm, Hin, Hit. cbn [fst snd].
  split; [done|]. split; [by rewrite hideActiveMenu_lastRightClickedElement|].
  split; [apply hideActiveMenu_activeMenu|].
  split; [by rewrite (hideActiveMenu_dispatched _ _ menu)|done].
Qed.

Lemma C4_witness :
  let r := handleClickOutside Sample.page (mouseEvent Sample.lastItem 120 150)
             Sample.opened in
  getAttribute Sample.page "href" Sample.lastItem = Some "#"%string
  ∧ lastRightClickedElement r.2 = None
  ∧ activeMenu r.2 = None
  ∧ defaultPrevented r.1 = true.
Proof.
  destruct (C4_click_on_item Sample.page (mouseEvent Sample.lastItem 120 150)
              Sample.opened Sample.m1 Sample.lastItem)
    as (_ & Hl & Ha & _ & _ & Hp); try reflexivity.
  split; [reflexivity|]. split; [exact Hl|]. split; [exact Ha|].
  apply Hp. reflexivity.
Defined.

(** ** Animation frames *)

Lemma sameMenuState_refl st : sameMenuState st st.
Proof. by repeat split. Qed.

Lemma sameMenuState_trans st1 st2 st3 :
  sameMenuState st1 st2 → sameMenuState st2 st3 → sameMenuState st1 st3.
Proof.
  unfold sameMenuState. intros H1 H2.
  destruct_and!. repeat split; congruence.
Qed.

Lemma focus_sameMenuState doc h st : sameMenuState st (focus doc h st).
Proof. unfold_focus; by repeat split. Qed.

Lemma frameCallback_sameMenuState doc menu x y st :
  sameMenuState st (frameCallback doc menu x y st).
Proof.
  unfold frameCallback. destruct (querySelector doc ENABLED_ITEM menu).
  - eapply sameMenuState_trans; [|apply focus_sameMenuState]. by repeat split.
  - by repeat split.
Qed.

Lemma animationFrame_sameMenuState doc st :
  sameMenuState st (animationFrame doc st).
Proof.
  unfold animationFrame.
  assert (H : sameMenuState st (setFrameRequests [] st)) by (by repeat split).
  revert H. generalize (setFrameRequests [] st).
  induction (frameRequests st) as [|[[m x] y] l IH]; intros s Hs; [done|].
  simpl. apply IH. eapply sameMenuState_trans; [exact Hs|].
  apply frameCallback_sameMenuState.
Qed.

(** ** Secondary clicks *)

Section Trigger.

Variable doc : Node.
Variables (T M : handle) (menuId : string).
Hypothesis bound : getAttribute doc CONTEXT_MENU_ATTR T = Some menuId.
Hypothesis nonempty : menuId ≠ ""%string.
Hypothesis resolves : getElementById doc menuId = Some M.
Hypothesis valid : classListContains doc CONTEXT_MENU_CLASS M = true.

Lemma handleContextMenu_custom event st :
  closest doc TRIGGER (target event) = Some T →
  lastRightClickedElement st ≠ Some T →
  handleContextMenu doc event st
  = (stopPropagation (preventDefault event),
     showMenu M (clientX event) (clientY event) T
       (hideActiveMenu doc (setLastRightClickedElement (Some T) st))).
Proof.
  intros Hc Hl. unfold handleContextMenu.
  rewrite Hc, bound, resolves, valid.
  rewrite decide_False by done. simpl. by rewrite decide_False.
Qed.

Lemma handleContextMenu_native event st :
  closest doc TRIGGER (target event) = Some T →
  lastRightClickedElement st = Some T →
  handleContextMenu doc event st
  = (event, hideActiveMenu doc (setLastRightClickedElement None st)).
Proof.
  intros Hc Hl. unfold handleContextMenu.
  rewrite Hc, bound, resolves, valid.
  rewrite decide_False by done. simpl. by rewrite decide_True.
Qed.

End Trigger.

(** C1, as the claim states it, fails: with the button's menu open and
    the button remembered, the next two consecutive secondary clicks on the
    button are the second and third of a row; the first of the two closes
    the menu and leaves the native menu alone, the second opens the custom
    menu again.  The same happens to the two clicks that follow an Escape,
    which closes the menu and keeps the button remembered. *)
Lemma C1_counterexample :
  let click := mouseEvent Sample.btn 100 50 in
  let r1 := handleContextMenu Sample.page click Sample.opened in
  let r2 := handleContextMenu Sample.page click r1.2 in
  let closed := step Sample.page
                  (KeyDown (keyboardEvent Sample.btn "Escape" false))
                  Sample.opened in
  let e1 := handleContextMenu Sample.page click closed in
  let e2 := handleContextMenu Sample.page click e1.2 in
  lastRightClickedElement Sample.opened = Some Sample.btn
  ∧ (activeMenu r1.2 = None ∧ defaultPrevented r1.1 = false)
  ∧ (activeMenu r2.2 = Some Sample.m1 ∧ defaultPrevented r2.1 = true
     ∧ lastRightClickedElement r2.2 = Some Sample.btn)
  ∧ (activeMenu closed = None
     ∧ lastRightClickedElement closed = Some Sample.btn)
  ∧ (activeMenu e1.2 = None ∧ defaultPrevented e1.1 = false)
  ∧ (activeMenu e2.2 = Some Sample.m1 ∧ defaultPrevented e2.1 = true
     ∧ lastRightClickedElement e2.2 = Some Sample.btn).
Proof. vm_compute. repeat split. Qed.

(** C1 (amended): starting with anything but [T] remembered, the first secondary
    click on a trigger [T] bound to a valid menu [M] opens [M] with [T] as
    its trigger and prevents the default action of the event; the second
    one, whether or not the animation frame has fired in between, closes
    the menu, leaves the event untouched (default not prevented) and clears
    the remembered element. *)
Theorem C1_toggle doc T M menuId e1 e2 st (frame : bool) :
  getAttribute doc CONTEXT_MENU_ATTR T = Some menuId →
  menuId ≠ ""%string →
  getElementById doc menuId = Some M →
  classListContains doc CONTEXT_MENU_CLASS M = true →
  closest doc TRIGGER (target e1) = Some T →
  closest doc TRIGGER (target e2) = Some T →
  lastRightClickedElement st ≠ Some T →
  let r1 := handleContextMenu doc e1 st in
  let between := if frame then animationFrame doc r1.2 else r1.2 in
  let r2 := handleContextMenu doc e2 between in
  (activeMenu r1.2 = Some M
   ∧ bsContextMenuTrigger r1.2 !! M = Some T
   ∧ M ∈ showClass r1.2
   ∧ ariaExpanded r1.2 !! T = Some true
   ∧ lastRightClickedElement r1.2 = Some T
   ∧ defaultPrevented r1.1 = true)
  ∧ (activeMenu r2.2 = None
     ∧ ¬ (M ∈ showClass r2.2)
     ∧ ariaExpanded r2.2 !! T = Some false
     ∧ dispatched r2.2 = dispatched r1.2 ++ [HideNotification M (Some T)]
     ∧ lastRightClickedElement r2.2 = None
     ∧ r2.1 = e2
     ∧ defaultPrevented r2.1 = defaultPrevented e2).
Proof.
  intros Hb Hne Hres Hval Hc1 Hc2 Hl r1 between r2.
  assert (Hr1 : r1 = (stopPropagation (preventDefault e1),
                      showMenu M (clientX e1) (clientY e1) T
                        (hideActiveMenu doc
                           (setLastRightClickedElement (Some T) st))))
    by (by apply (handleContextMenu_custom doc T M menuId)).
  assert (H1 : activeMenu r1.2 = Some M
               ∧ bsContextMenuTrigger r1.2 !! M = Some T
               ∧ M ∈ showClass r1.2
               ∧ ariaExpanded r1.2 !! T = Some true
               ∧ lastRightClickedElement r1.2 = Some T).
  { rewrite Hr1. cbn [snd]. split; [done|].
    split; [apply lookup_insert_eq|]. split; [simpl; set_solver|].
    split; [apply lookup_insert_eq|].
    change (lastRightClickedElement
              (hideActiveMenu doc (setLastRightClickedElement (Some T) st))
            = Some T).
    by rewrite hideActiveMenu_lastRightClickedElement. }
  destruct H1 as (Ha & Ht & Hs & Hx & Hlast).
  assert (Hsame : sameMenuState r1.2 between).
  { subst between. destruct frame;
      [apply animationFrame_sameMenuState|apply sameMenuState_refl]. }
  destruct Hsame as (Ea & El & Es & Ex & Et & Ed & _).
  assert (Hr2 : r2 = (e2, hideActiveMenu doc
                            (setLastRightClickedElement None between))).
  { apply (handleContextMenu_native doc T M menuId); try done. congruence. }
  split.
  - repeat split; try done. by rewrite Hr1.
  - rewrite Hr2. cbn [fst snd].
    assert (Hopen : activeMenu (setLastRightClickedElement None between) = Some M)
      by (simpl; congruence).
    assert (Htrig : bsContextMenuTrigger (setLastRightClickedElement None between)
                    !! M = Some T) by (simpl; congruence).
    split; [apply hideActiveMenu_activeMenu|].
    split; [rewrite (hideActiveMenu_showClass _ _ M Hopen);
            rewrite elem_of_difference, elem_of_singleton; tauto|].
    split; [rewrite (hideActiveMenu_ariaExpanded _ _ M T Hopen Htrig);
            apply lookup_insert_eq|].
    split; [rewrite (hideActiveMenu_dispatched _ _ M Hopen), Htrig; simpl;
            congruence|].
    split; [by rewrite hideActiveMenu_lastRightClickedElement|done].
Qed.

Lemma C1_witness :
  let r1 := handleContextMenu Sample.page (mouseEvent Sample.btn 100 50)
              Sample.start in
  let r2 := handleContextMenu Sample.page (mouseEvent Sample.btn 100 50)
              (animationFrame Sample.page r1.2) in
  (activeMenu r1.2 = Some Sample.m1 ∧ defaultPrevented r1.1 = true)
  ∧ (activeMenu r2.2 = None ∧ defaultPrevented r2.1 = false
     ∧ lastRightClickedElement r2.2 = None).
Proof.
  pose proof (C1_toggle Sample.page Sample.btn Sample.m1 "m1"%string
                (mouseEvent Sample.btn 100 50) (mouseEvent Sample.btn 100 50)
                Sample.start true) as H.
  destruct H as [H1 H2]; try reflexivity; try discriminate.
  destruct H1 as (? & _ & _ & _ & _ & ?).
  destruct H2 as (? & _ & _ & _ & ? & _ & ?). auto.
Defined.

(** ** The remembered element *)

Lemma hideActiveMenu_setLastRightClickedElement doc v st :
  hideActiveMenu doc (setLastRightClickedElement v st)
  = setLastRightClickedElement v (hideActiveMenu doc st).
Proof.
  unfold hideActiveMenu.
  change (activeMenu (setLastRightClickedElement v st)) with (activeMenu st).
  change (bsContextMenuTrigger (setLastRightClickedElement v st))
    with (bsContextMenuTrigger st).
  destruct (activeMenu st) as [menu|]; [|reflexivity].
  destruct (bsContextMenuTrigger st !! menu) as [t|]; [|reflexivity].
  unfold focus.
  set (a := setAriaExpanded _ (setLastRightClickedElement v st)).
  set (b := setAriaExpanded _ st).
  change (canFocus doc t a) with (canFocus doc t b).
  destruct (canFocus doc t b); reflexivity.
Qed.

Lemma focusNextItem_sameMenuState doc d st :
  sameMenuState st (focusNextItem doc d st).
Proof.
  unfold focusNextItem. destruct (nextItem doc d st);
    [apply focus_sameMenuState|apply sameMenuState_refl].
Qed.

Lemma handleClickOutside_lastRightClickedElement doc event st :
  let st' := (handleClickOutside doc event st).2 in
  lastRightClickedElement st' = lastRightClickedElement st
  ∨ lastRightClickedElement st' = None.
Proof.
  unfold handleClickOutside. destruct (activeMenu st); [|by left].
  destruct (contains _ _); [destruct (closest _ _ _)|]; cbn [snd];
    rewrite ?hideActiveMenu_lastRightClickedElement; auto.
Qed.

Lemma handleKeyDown_lastRightClickedElement doc event st :
  let st' := (handleKeyDown doc event st).2 in
  lastRightClickedElement st' = lastRightClickedElement st
  ∨ lastRightClickedElement st' = None.
Proof.
  unfold handleKeyDown. destruct (activeMenu st); [|by left].
  repeat case_decide; cbn [snd];
    rewrite ?hideActiveMenu_lastRightClickedElement; auto.
  - left. apply focusNextItem_sameMenuState.
  - left. apply focusNextItem_sameMenuState.
  - destruct (classListContains _ _ _); cbn [snd]; [|by left].
    unfold click. destruct (matchesAt _ _ _); [by left|].
    apply handleClickOutside_lastRightClickedElement.
  - left. apply focusNextItem_sameMenuState.
Qed.

Lemma show_lastRightClickedElement doc menuOrId x y trigger st :
  lastRightClickedElement (show doc menuOrId x y trigger st)
  = lastRightClickedElement st.
Proof.
  unfold show.
  destruct (match menuOrId with inl el => Some el | inr id => _ end); [|done].
  destruct (classListContains _ _ _); [|done].
  apply hideActiveMenu_lastRightClickedElement.
Qed.

(** A step keeps the remembered element, clears it, or is the secondary
    click that opens a menu for the newly remembered trigger. *)
Lemma step_lastRightClickedElement doc i st :
  let st' := step doc i st in
  lastRightClickedElement st' = lastRightClickedElement st
  ∨ lastRightClickedElement st' = None
  ∨ ∃ event menu trigger,
      i = ContextMenu event
      ∧ closest doc TRIGGER (target event) = Some trigger
      ∧ lastRightClickedElement st' = Some trigger
      ∧ activeMenu st' = Some menu
      ∧ bsContextMenuTrigger st' !! menu = Some trigger
      ∧ dispatched st'
        = dispatched (hideActiveMenu doc st)
          ++ [ShowNotification menu trigger (clientX event) (clientY event)].
Proof.
  destruct i as [event|event|event| |w h| |menuOrId x y trigger|]; cbn [step].
  - unfold handleContextMenu.
    destruct (closest doc TRIGGER (target event)) as [trigger|] eqn:Hc; [|auto].
    destruct (getAttribute _ _ _) as [menuId|]; [|auto].
    case_decide; [auto|].
    destruct (getElementById _ _) as [menu|]; [|auto].
    destruct (classListContains _ _ _); cbn [negb]; [|auto].
    case_decide.
    + right; left. cbn [snd]. by rewrite hideActiveMenu_lastRightClickedElement.
    + right; right. exists event, menu, trigger. cbn [snd].
      split; [done|]. split; [done|].
      split.
      { change (lastRightClickedElement
                  (hideActiveMenu doc
                     (setLastRightClickedElement (Some trigger) st))
                = Some trigger).
        by rewrite hideActiveMenu_lastRightClickedElement. }
      split; [done|]. split; [apply lookup_insert_eq|].
      by rewrite hideActiveMenu_setLastRightClickedElement.
  - destruct (handleClickOutside_lastRightClickedElement doc event st); auto.
  - destruct (handleKeyDown_lastRightClickedElement doc event st); auto.
  - left. apply hideActiveMenu_lastRightClickedElement.
  - left. by rewrite hideActiveMenu_lastRightClickedElement.
  - left. apply animationFrame_sameMenuState.
  - left. apply show_lastRightClickedElement.
  - left. apply hideActiveMenu_lastRightClickedElement.
Qed.

(** C2, as the claim states it, fails: the menu opened from the button is
    hidden by a scroll, by a resize, by Escape and by [BSContextMenu.hide()],
    and each time the closed state still remembers the button; and a
    secondary click on the image while the button's menu is open hides that
    menu, with its [hide.bs.contextmenu] event, and ends with the image
    remembered. *)
Lemma C2_counterexample :
  let after i := run Sample.page [ContextMenu (mouseEvent Sample.btn 100 50); i]
                    Sample.start in
  activeMenu Sample.opened = Some Sample.m1
  ∧ (activeMenu (after Scroll) = None
     ∧ lastRightClickedElement (after Scroll) = Some Sample.btn)
  ∧ (activeMenu (after (Resize 900 700)) = None
     ∧ lastRightClickedElement (after (Resize 900 700)) = Some Sample.btn)
  ∧ (activeMenu (after (KeyDown (keyboardEvent Sample.btn "Escape" false))) = None
     ∧ lastRightClickedElement
         (after (KeyDown (keyboardEvent Sample.btn "Escape" false)))
       = Some Sample.btn)
  ∧ (activeMenu (after ApiHide) = None
     ∧ lastRightClickedElement (after ApiHide) = Some Sample.btn)
  ∧ (dispatched (after (ContextMenu (mouseEvent Sample.pic 300 200)))
     = [ShowNotification Sample.m1 Sample.btn 100 50;
        HideNotification Sample.m1 (Some Sample.btn);
        ShowNotification Sample.m1 Sample.pic 300 200]
     ∧ lastRightClickedElement
         (after (ContextMenu (mouseEvent Sample.pic 300 200)))
       = Some Sample.pic).
Proof. vm_compute. repeat split. Qed.

(** C2 (amended): the remembered element is set only by the secondary
    click that shows a menu (after hiding the one that was open), and is
    then the trigger of the menu just shown; it is cleared by every primary
    click outside the open menu, by every click on a menu item, by the
    second consecutive secondary click on the remembered trigger and by a
    secondary click outside every trigger. *)
Theorem C2_toggle_memory doc st :
  (∀ i T,
     lastRightClickedElement (step doc i st) = Some T →
     lastRightClickedElement st ≠ Some T →
     ∃ event menu,
       i = ContextMenu event
       ∧ closest doc TRIGGER (target event) = Some T
       ∧ activeMenu (step doc i st) = Some menu
       ∧ bsContextMenuTrigger (step doc i st) !! menu = Some T
       ∧ dispatched (step doc i st)
         = dispatched (hideActiveMenu doc st)
           ++ [ShowNotification menu T (clientX event) (clientY event)])
  ∧ (∀ event menu,
       activeMenu st = Some menu →
       contains menu (target event) = false
       ∨ is_Some (closest doc ITEM (target event)) →
       lastRightClickedElement (step doc (Click event) st) = None)
  ∧ (∀ event T menuId menu,
       closest doc TRIGGER (target event) = Some T →
       getAttribute doc CONTEXT_MENU_ATTR T = Some menuId →
       menuId ≠ ""%string →
       getElementById doc menuId = Some menu →
       classListContains doc CONTEXT_MENU_CLASS menu = true →
       lastRightClickedElement st = Some T →
       lastRightClickedElement (step doc (ContextMenu event) st) = None)
  ∧ (∀ event,
       closest doc TRIGGER (target event) = None →
       lastRightClickedElement (step doc (ContextMenu event) st) = None).
Proof.
  split; [|split; [|split]].
  - intros i T Hset Hnot.
    destruct (step_lastRightClickedElement doc i st)
      as [H|[H|(event & menu & trigger & -> & Hc & Hl & Ha & Ht & Hd)]];
      [congruence|congruence|].
    assert (trigger = T) as -> by congruence. by exists event, menu.
  - intros event menu Ha Hwhere. cbn [step]. unfold handleClickOutside.
    rewrite Ha. destruct (contains menu (target event)).
    + destruct Hwhere as [?|[it Hit]]; [done|]. rewrite Hit. cbn [snd].
      by rewrite hideActiveMenu_lastRightClickedElement.
    + cbn [snd]. by rewrite hideActiveMenu_lastRightClickedElement.
  - intros event T menuId menu Hc Hb Hne Hres Hval Hl. cbn [step].
    rewrite (handleContextMenu_native doc T menu menuId) by done.
    cbn [snd]. by rewrite hideActiveMenu_lastRightClickedElement.
  - intros event Hc. cbn [step]. unfold handleContextMenu. by rewrite Hc.
Qed.

Lemma C2_witness :
  let rightClick := mouseEvent Sample.btn 100 50 in
  (∃ event menu,
     ContextMenu rightClick = ContextMenu event
     ∧ activeMenu (step Sample.page (ContextMenu rightClick) Sample.start)
       = Some menu)
  ∧ lastRightClickedElement
      (step Sample.page (Click (mouseEvent Sample.paragraph 500 400))
         Sample.opened) = None
  ∧ lastRightClickedElement
      (step Sample.page (Click (mouseEvent Sample.lastItem 120 150))
         Sample.opened) = None
  ∧ lastRightClickedElement
      (step Sample.page (ContextMenu rightClick) Sample.opened) = None
  ∧ lastRightClickedElement
      (step Sample.page (ContextMenu (mouseEvent Sample.paragraph 500 400))
         Sample.opened) = None.
Proof.
  intros rightClick.
  destruct (C2_toggle_memory Sample.page Sample.start) as (Hset & _).
  destruct (C2_toggle_memory Sample.page Sample.opened)
    as (_ & Hclick & Hsecond & Hplain).
  split.
  { destruct (Hset (ContextMenu rightClick) Sample.btn)
      as (event & menu & Hi & _ & Ha & _); [reflexivity|discriminate|].
    by exists event, menu. }
  split.
  { apply (Hclick (mouseEvent Sample.paragraph 500 400) Sample.m1);
      [reflexivity|left; reflexivity]. }
  split.
  { apply (Hclick (mouseEvent Sample.lastItem 120 150) Sample.m1);
      [reflexivity|right; by exists Sample.lastItem]. }
  split.
  { apply (Hsecond rightClick Sample.btn "m1"%string Sample.m1);
      try reflexivity. discriminate. }
  apply (Hplain (mouseEvent Sample.paragraph 500 400)). reflexivity.
Defined.

(** ** Reachable states *)

Lemma sameMenuState_shownIsActive st st' :
  sameMenuState st st' → shownIsActive st → shownIsActive st'.
Proof.
  intros (Ha & _ & Hs & _) H menu. rewrite Ha, Hs. apply H.
Qed.

Lemma hideActiveMenu_shownIsActive doc st :
  shownIsActive st → shownIsActive (hideActiveMenu doc st).
Proof.
  intros H menu. destruct (activeMenu st) as [m|] eqn:Ha.
  - rewrite (hideActiveMenu_showClass _ _ m Ha).
    intros [Hin Hne]%elem_of_difference. apply H in Hin.
    rewrite elem_of_singleton in Hne. congruence.
  - rewrite hideActiveMenu_closed by done. apply H.
Qed.

Lemma showMenu_shownIsActive menu x y trigger st :
  activeMenu st = None → shownIsActive st →
  shownIsActive (showMenu menu x y trigger st).
Proof.
  intros Ha H m. cbn. intros [->%elem_of_singleton|Hin]%elem_of_union; [done|].
  apply H in Hin. congruence.
Qed.

Lemma focus_frameRequests doc h st :
  frameRequests (focus doc h st) = frameRequests st.
Proof. by unfold_focus. Qed.

Lemma frameCallback_frameRequests doc menu x y st :
  frameRequests (frameCallback doc menu x y st) = frameRequests st.
Proof.
  unfold frameCallback. destruct (querySelector _ _ _); [|done].
  by rewrite focus_frameRequests.
Qed.

Lemma animationFrame_frameRequests doc st :
  frameRequests (animationFrame doc st) = [].
Proof.
  unfold animationFrame.
  assert (H : frameRequests (setFrameRequests [] st) = []) by done.
  revert H. generalize (setFrameRequests [] st).
  induction (frameRequests st) as [|[[m x] y] l IH]; intros s Hs; [done|].
  simpl. apply IH. by rewrite frameCallback_frameRequests.
Qed.

Lemma focusNextItem_frameRequests doc d st :
  frameRequests (focusNextItem doc d st) = frameRequests st.
Proof.
  unfold focusNextItem. destruct (nextItem _ _ _); [|done].
  apply focus_frameRequests.
Qed.

Lemma showMenu_pendingValid doc menu x y trigger st :
  classListContains doc CONTEXT_MENU_CLASS menu = true →
  pendingValid doc st → pendingValid doc (showMenu menu x y trigger st).
Proof.
  intros Hv H m x' y'. cbn.
  intros [Hin|[= -> _ _]%list_elem_of_singleton]%elem_of_app; [|done].
  by apply (H m x' y').
Qed.

(** The two invariants together, for the handlers. *)
Lemma hideActiveMenu_invariant doc st :
  shownIsActive st ∧ pendingValid doc st →
  shownIsActive (hideActiveMenu doc st) ∧ pendingValid doc (hideActiveMenu doc st).
Proof.
  intros [H1 H2]. split; [by apply hideActiveMenu_shownIsActive|].
  unfold pendingValid. by rewrite hideActiveMenu_frameRequests.
Qed.

Lemma showMenu_invariant doc menu x y trigger st :
  classListContains doc CONTEXT_MENU_CLASS menu = true →
  shownIsActive st ∧ pendingValid doc st →
  let st' := showMenu menu x y trigger (hideActiveMenu doc st) in
  shownIsActive st' ∧ pendingValid doc st'.
Proof.
  intros Hv [H1 H2]%(hideActiveMenu_invariant doc). split.
  - apply showMenu_shownIsActive; [apply hideActiveMenu_activeMenu|done].
  - by apply showMenu_pendingValid.
Qed.

Lemma handleClickOutside_invariant doc event st :
  shownIsActive st ∧ pendingValid doc st →
  let st' := (handleClickOutside doc event st).2 in
  shownIsActive st' ∧ pendingValid doc st'.
Proof.
  intros H. unfold handleClickOutside. destruct (activeMenu st); [|done].
  destruct (contains _ _); [destruct (closest _ _ _)|]; cbn [snd]; try done;
    by apply hideActiveMenu_invariant.
Qed.

Lemma focusNextItem_invariant doc d st :
  shownIsActive st ∧ pendingValid doc st →
  shownIsActive (focusNextItem doc d st) ∧ pendingValid doc (focusNextItem doc d st).
Proof.
  intros [H1 H2]. split.
  - eapply sameMenuState_shownIsActive; [apply focusNextItem_sameMenuState|done].
  - unfold pendingValid. by rewrite focusNextItem_frameRequests.
Qed.

Lemma step_invariant doc i st :
  shownIsActive st ∧ pendingValid doc st →
  shownIsActive (step doc i st) ∧ pendingValid doc (step doc i st).
Proof.
  intros H.
  destruct i as [event|event|event| |w h| |menuOrId x y trigger|]; cbn [step].
  - unfold handleContextMenu.
    destruct (closest doc TRIGGER (target event)) as [trigger|]; [|done].
    destruct (getAttribute _ _ _) as [menuId|]; [|done].
    case_decide; [done|].
    destruct (getElementById _ _) as [menu|]; [|done].
    destruct (classListContains _ _ _) eqn:Hv; cbn [negb]; [|done].
    case_decide; cbn [snd].
    + by apply hideActiveMenu_invariant.
    + by apply (showMenu_invariant doc menu).
  - by apply handleClickOutside_invariant.
  - unfold handleKeyDown. destruct (activeMenu st); [|done].
    repeat case_decide; cbn [snd]; try done;
      try (by apply focusNextItem_invariant).
    + by apply hideActiveMenu_invariant.
    + destruct (classListContains _ _ _); cbn [snd]; [|done].
      unfold click. destruct (matchesAt _ _ _); [done|].
      by apply handleClickOutside_invariant.
  - by apply hideActiveMenu_invariant.
  - by apply hideActiveMenu_invariant.
  - destruct H as [H1 H2]. split.
    + eapply sameMenuState_shownIsActive;
        [apply animationFrame_sameMenuState|done].
    + unfold pendingValid. rewrite animationFrame_frameRequests.
      by intros ??? ?%elem_of_nil.
  - unfold show.
    destruct (match menuOrId with inl el => Some el | inr id => _ end)
      as [menu|]; [|done].
    destruct (classListContains _ _ _) eqn:Hv; [|done].
    by apply (showMenu_invariant doc menu).
  - by apply hideActiveMenu_invariant.
Qed.

Lemma reachable_invariant doc st :
  reachable doc st → shownIsActive st ∧ pendingValid doc st.
Proof.
  intros (w & h & inputs & ->). unfold run.
  assert (H0 : shownIsActive (initial w h) ∧ pendingValid doc (initial w h)).
  { split; [by intros ? ?%elem_of_empty|by intros ??? ?%elem_of_nil]. }
  revert H0. generalize (initial w h).
  induction inputs as [|i inputs IH]; intros s Hs; [done|].
  simpl. apply IH. by apply step_invariant.
Qed.

(** ** The deferred callback *)

Lemma hidden_menu_rect doc menu st :
  classListContains doc CONTEXT_MENU_CLASS menu = true → menu ∉ showClass st →
  getBoundingClientRect doc menu st = (0, 0).
Proof.
  intros Hv Hs. unfold getBoundingClientRect.
  destruct (elementAt doc menu); [|done].
  by rewrite hidden_menu_not_displayed.
Qed.

Lemma hidden_menu_item_canFocus doc s menu it st :
  classListContains doc CONTEXT_MENU_CLASS menu = true → menu ∉ showClass st →
  it ∈ querySelectorAll doc s menu →
  canFocus doc it st = false.
Proof.
  intros Hv Hs [_ (k & i & ->)]%querySelectorAll_spec. unfold canFocus.
  destruct (displayed doc (showClass st) (k ++ i :: menu)) eqn:Hd;
    [|by rewrite andb_false_r].
  change (k ++ i :: menu) with (k ++ [i] ++ menu) in Hd.
  rewrite app_assoc in Hd. apply displayed_below in Hd.
  by rewrite hidden_menu_not_displayed in Hd.
Qed.

(** C3, as the claim states it, fails: [BSContextMenu.show('m1', 2000, 10)]
    followed by [BSContextMenu.hide()] leaves the menu closed with its
    callback pending; when the frame fires the callback moves the closed
    menu's left from 2000 to 995. *)
Lemma C3_counterexample :
  let closed := run Sample.page
                  [ApiShow (inr "m1"%string) 2000 10 None; ApiHide] Sample.start in
  activeMenu closed = None
  ∧ frameRequests closed = [(Sample.m1, 2000, 10)]
  ∧ styleLeft closed !! Sample.m1 = Some 2000
  ∧ styleLeft (step Sample.page AnimationFrame closed) !! Sample.m1 = Some 995
  ∧ step Sample.page AnimationFrame closed ≠ setFrameRequests [] closed.
Proof.
  vm_compute. repeat split.
  intros H. apply (f_equal (λ st, styleLeft st !! Sample.m1)) in H.
  vm_compute in H. discriminate.
Qed.

(** A callback for a menu that is not the active one only writes that
    menu's left and top, from the anchor and a box of size zero. *)
Lemma frameCallback_not_active doc st menu x y :
  shownIsActive st →
  classListContains doc CONTEXT_MENU_CLASS menu = true →
  activeMenu st ≠ Some menu →
  frameCallback doc menu x y st
  = let new := adjustedPosition (innerWidth st) (innerHeight st) 0 0 x y in
    setStyle (<[menu := new.1]> (styleLeft st)) (<[menu := new.2]> (styleTop st)) st.
Proof.
  intros Hshown Hv Hna.
  assert (Hs : menu ∉ showClass st) by (intros ?%Hshown; congruence).
  unfold frameCallback, adjustMenuPosition.
  rewrite (hidden_menu_rect doc menu st Hv Hs). cbn [fst snd].
  unfold querySelector.
  destruct (querySelectorAll doc ENABLED_ITEM menu) as [|it l] eqn:Hq; [done|].
  cbn [head]. unfold focus.
  rewrite (hidden_menu_item_canFocus doc ENABLED_ITEM menu it); try done.
  rewrite Hq. apply list_elem_of_here.
Qed.

(** With no menu open, a whole animation frame moves focus nowhere. *)
Lemma animationFrame_closed doc st :
  reachable doc st → activeMenu st = None →
  activeElement (animationFrame doc st) = activeElement st.
Proof.
  intros [Hshown Hpending]%reachable_invariant Hclosed. unfold animationFrame.
  assert (H : shownIsActive (setFrameRequests [] st)
              ∧ activeMenu (setFrameRequests [] st) = None
              ∧ activeElement (setFrameRequests [] st) = activeElement st)
    by done.
  revert H. generalize (setFrameRequests [] st).
  unfold pendingValid in Hpending.
  induction (frameRequests st) as [|[[m x] y] l IH]; intros s (Hs & Hc & He);
    [done|].
  cbn [foldl fst snd]. apply IH.
  - intros m' x' y' Hin. apply (Hpending m' x' y'). by apply elem_of_cons; right.
  - rewrite frameCallback_not_active; try done.
    + apply (Hpending m x y), list_elem_of_here.
    + congruence.
Qed.

(** C3 (amended): the callback makes no check of [activeMenu].  At any
    moment of a frame that starts in a reachable state, a pending callback
    whose menu is no longer the active one finds that menu hidden: its
    measured size is zero and its items are not rendered, so focus does not
    move and the only effect is that the menu's left and top are written
    again from the original anchor, clamped as for a box of size zero (the
    anchor itself when it lies within the viewport). *)
Theorem C3_stale_frameCallback doc st0 st menu x y :
  reachable doc st0 →
  (menu, x, y) ∈ frameRequests st0 →
  sameMenuState st0 st →
  activeMenu st0 ≠ Some menu →
  let st' := frameCallback doc menu x y st in
  let new := adjustedPosition (innerWidth st) (innerHeight st) 0 0 x y in
  st' = setStyle (<[menu := new.1]> (styleLeft st))
                 (<[menu := new.2]> (styleTop st)) st
  ∧ activeElement st' = activeElement st
  ∧ sameMenuState st0 st'
  ∧ (x <= innerWidth st → y <= innerHeight st → new = (x, y)).
Proof.
  intros [Hshown Hpending]%reachable_invariant Hin Hsame Hna st' new.
  assert (Heq : st' = setStyle (<[menu := new.1]> (styleLeft st))
                               (<[menu := new.2]> (styleTop st)) st).
  { subst st' new. apply frameCallback_not_active.
    - by eapply sameMenuState_shownIsActive.
    - by apply (Hpending menu x y).
    - destruct Hsame as [-> _]. done. }
  split; [exact Heq|]. rewrite Heq.
  split; [done|]. split; [exact Hsame|].
  intros Hx Hy. subst new. unfold adjustedPosition.
  destruct (Z.gtb_spec (x + 0) (innerWidth st)); [lia|].
  destruct (Z.gtb_spec (y + 0) (innerHeight st)); [lia|]. reflexivity.
Qed.

Lemma C3_witness :
  let closed := run Sample.page
                  [ContextMenu (mouseEvent Sample.btn 100 50); Scroll] Sample.start in
  let st := setFrameRequests [] closed in
  reachable Sample.page closed
  ∧ activeElement (frameCallback Sample.page Sample.m1 100 50 st)
    = activeElement st
  ∧ adjustedPosition (innerWidth st) (innerHeight st) 0 0 100 50 = (100, 50).
Proof.
  intros closed st.
  assert (Hr : reachable Sample.page closed).
  { exists 1000, 800,
      [ContextMenu (mouseEvent Sample.btn 100 50); Scroll]. reflexivity. }
  split; [exact Hr|].
  destruct (C3_stale_frameCallback Sample.page closed st Sample.m1 100 50 Hr)
    as (_ & Hfocus & _ & Hanchor).
  - vm_compute. apply list_elem_of_here.
  - repeat split.
  - vm_compute. discriminate.
  - split; [exact Hfocus|]. apply Hanchor; vm_compute; discriminate.
Defined.

(** ** Keyboard navigation *)

(** Closes [x ∉ [a; b; ...]] for distinct concrete handles. *)
Ltac not_listed :=
  let H := fresh in
  intros H; repeat (apply elem_of_cons in H as [H|H]; [discriminate|]);
  by apply elem_of_nil in H.

Lemma indexOf_not_elem items x : x ∉ items → indexOf items x = -1.
Proof.
  induction items as [|y items IH]; [done|].
  intros [Hne Hnin]%not_elem_of_cons. cbn [indexOf].
  rewrite decide_False by done. by rewrite IH.
Qed.

Lemma indexOf_range items x : -1 <= indexOf items x.
Proof.
  induction items as [|y items IH]; cbn [indexOf]; [lia|].
  case_decide; [lia|]. destruct (Z.eqb_spec (indexOf items x) (-1)); lia.
Qed.

Lemma indexOf_lookup items : ∀ i x,
  NoDup items → items !! i = Some x → indexOf items x = Z.of_nat i.
Proof.
  induction items as [|y items IH]; intros i x Hnd Hi; [done|].
  apply NoDup_cons in Hnd as [Hy Hnd]. cbn [indexOf].
  destruct i as [|i]; simpl in Hi.
  - injection Hi as ->. by rewrite decide_True.
  - rewrite decide_False.
    + rewrite (IH i x Hnd Hi).
      destruct (Z.eqb_spec (Z.of_nat i) (-1)); lia.
    + intros ->. apply Hy. by eapply list_elem_of_lookup_2.
Qed.

Lemma item_of_nat items (i : nat) : item items (Z.of_nat i) = items !! i.
Proof.
  unfold item. destruct (Z.ltb_spec (Z.of_nat i) 0); [lia|].
  by rewrite Nat2Z.id.
Qed.

Lemma item_elem items i x : item items i = Some x → x ∈ items.
Proof.
  unfold item. destruct (i <? 0); [done|]. apply list_elem_of_lookup_2.
Qed.

Lemma next_index k N :
  (0 < N)%nat →
  Z.rem (Z.of_nat (k mod N) + 1 + Z.of_nat N) (Z.of_nat N)
  = Z.of_nat (S k mod N).
Proof.
  intros HN. rewrite Z.rem_mod_nonneg by lia.
  rewrite !Nat2Z.inj_mod.
  replace (Z.of_nat k `mod` Z.of_nat N + 1 + Z.of_nat N)
    with (Z.of_nat k `mod` Z.of_nat N + 1 + 1 * Z.of_nat N) by lia.
  rewrite Z_mod_plus_full, Zplus_mod_idemp_l. f_equal. lia.
Qed.

Section Navigation.

Variable doc : Node.
Variables (st : State) (menu : handle).
Hypothesis open : activeMenu st = Some menu.

Local Abbreviation items := (querySelectorAll doc ENABLED_ITEM menu).

Lemma nextItem_elem direction it :
  nextItem doc direction st = Some it → it ∈ items.
Proof.
  unfold nextItem. rewrite open.
  destruct (_ =? 0); [done|]. apply item_elem.
Qed.

(** With focus on none of the items, [+1] starts at the first item and
    every other direction at the last. *)
Lemma nextItem_from_none direction :
  (1 ≤ length items)%nat → activeElement st ∉ items →
  nextItem doc direction st
  = if direction =? 1 then items !! 0%nat else items !! (length items - 1)%nat.
Proof.
  intros HN Hnone. unfold nextItem. rewrite open.
  destruct (Z.eqb_spec (Z.of_nat (length items)) 0); [lia|].
  rewrite (indexOf_not_elem _ _ Hnone). cbn [Z.eqb Pos.eqb].
  destruct (direction =? 1); [apply (item_of_nat items 0)|].
  rewrite <-item_of_nat. f_equal. lia.
Qed.

(** With focus on the item at index [k mod N], [+1] goes to the item at
    index [(k + 1) mod N]. *)
Lemma nextItem_from_item k it st' :
  activeMenu st' = Some menu →
  items !! (k mod length items)%nat = Some it →
  activeElement st' = it →
  nextItem doc 1 st' = items !! (S k mod length items)%nat.
Proof.
  intros Hopen Hit Hact. unfold nextItem. rewrite Hopen.
  assert (HN : (0 < length items)%nat).
  { apply lookup_lt_Some in Hit. lia. }
  destruct (Z.eqb_spec (Z.of_nat (length items)) 0); [lia|].
  rewrite Hact, (indexOf_lookup items _ it (querySelectorAll_NoDup _ _ _) Hit).
  destruct (Z.eqb_spec (Z.of_nat (k mod length items)) (-1)); [lia|].
  rewrite next_index by done. apply item_of_nat.
Qed.

(** Repeated [focusNextItem(1)] from no focused item: after [k + 1] calls
    the item at index [k mod N] has focus, nothing else has changed. *)
Lemma focusNextItem_iter k :
  (1 ≤ length items)%nat →
  (∀ it, it ∈ items → canFocus doc it st = true) →
  activeElement st ∉ items →
  ∃ it, items !! (k mod length items)%nat = Some it
        ∧ Nat.iter (S k) (focusNextItem doc 1) st = setActiveElement it st.
Proof.
  intros HN Hfocus Hnone. induction k as [|k (it & Hit & IH)].
  - destruct (lookup_lt_is_Some_2 items 0%nat) as [it Hit]; [lia|].
    exists it. rewrite Nat.Div0.mod_0_l. split; [done|].
    cbn [Nat.iter nat_rect]. unfold focusNextItem.
    rewrite nextItem_from_none by done. cbn [Z.eqb Pos.eqb]. rewrite Hit.
    unfold focus. rewrite Hfocus; [done|]. by eapply list_elem_of_lookup_2.
  - destruct (lookup_lt_is_Some_2 items (S k mod length items)%nat)
      as [it' Hit']; [apply Nat.mod_upper_bound; lia|].
    exists it'. split; [done|].
    change (Nat.iter (S (S k)) (focusNextItem doc 1) st)
      with (focusNextItem doc 1 (Nat.iter (S k) (focusNextItem doc 1) st)).
    rewrite IH. unfold focusNextItem.
    rewrite (nextItem_from_item k it) by done. rewrite Hit'.
    unfold focus.
    change (canFocus doc it' (setActiveElement it st))
      with (canFocus doc it' st).
    rewrite Hfocus; [done|]. by eapply list_elem_of_lookup_2.
Qed.

End Navigation.

(** C8: with [N >= 1] enabled items and focus on none of them,
    direction [+1] selects the item at index 0 and direction [-1] the item
    at index [N - 1], and [focusNextItem] focuses it; whatever the direction
    and the focused element, the selected element is one of the menu's
    [.dropdown-item] elements that has neither the [disabled] class nor the
    [:disabled] state. *)
Theorem C8_focus_navigator doc st :
  (∀ menu,
     activeMenu st = Some menu →
     let items := querySelectorAll doc ENABLED_ITEM menu in
     (1 ≤ length items)%nat →
     activeElement st ∉ items →
     ∃ first last,
       items !! 0%nat = Some first
       ∧ items !! (length items - 1)%nat = Some last
       ∧ nextItem doc 1 st = Some first
       ∧ nextItem doc (-1) st = Some last
       ∧ focusNextItem doc 1 st = focus doc first st
       ∧ focusNextItem doc (-1) st = focus doc last st)
  ∧ (∀ direction it,
       nextItem doc direction st = Some it →
       (∃ menu, activeMenu st = Some menu
                ∧ it ∈ querySelectorAll doc ENABLED_ITEM menu)
       ∧ matchesAt doc ITEM it = true
       ∧ matchesAt doc (SelClass "disabled") it = false
       ∧ matchesAt doc SelDisabled it = false).
Proof.
  split.
  - intros menu Hopen items HN Hnone.
    destruct (lookup_lt_is_Some_2 items 0%nat) as [first Hfirst]; [lia|].
    destruct (lookup_lt_is_Some_2 items (length items - 1)%nat)
      as [last Hlast]; [lia|].
    exists first, last.
    pose proof (nextItem_from_none doc st menu Hopen 1 HN Hnone) as H1.
    pose proof (nextItem_from_none doc st menu Hopen (-1) HN Hnone) as H2.
    cbn [Z.eqb Pos.eqb] in H1, H2. fold items in H1, H2.
    rewrite Hfirst in H1. rewrite Hlast in H2.
    unfold focusNextItem. rewrite H1, H2. by repeat split.
  - intros direction it Hnext.
    destruct (activeMenu st) as [menu|] eqn:Hopen;
      [|by unfold nextItem in Hnext; rewrite Hopen in Hnext].
    pose proof (nextItem_elem doc st menu Hopen direction it Hnext) as Hin.
    split; [by exists menu|].
    apply querySelectorAll_spec in Hin as [Hm _].
    unfold matchesAt in *. destruct (elementAt doc it) as [e|]; [|done].
    cbn [matches ENABLED_ITEM] in Hm.
    apply andb_true_iff in Hm as [Hitem [Hc Hd]%andb_true_iff].
    apply negb_true_iff in Hc, Hd. auto.
Qed.

Lemma C8_witness :
  nextItem Sample.page 1 Sample.opened = Some Sample.link
  ∧ nextItem Sample.page (-1) Sample.opened = Some Sample.lastItem
  ∧ matchesAt Sample.page (SelClass "disabled") Sample.lastItem = false.
Proof.
  destruct (C8_focus_navigator Sample.page Sample.opened) as [Hnone Henabled].
  destruct (Hnone Sample.m1) as (first & last & Hf & Hl & H1 & H2 & _).
  - reflexivity.
  - vm_compute. lia.
  - vm_compute. not_listed.
  - injection Hf as <-. injection Hl as <-.
    split; [exact H1|]. split; [exact H2|].
    by destruct (Henabled (-1) Sample.lastItem H2) as (_ & _ & ? & _).
Defined.

(** C7, as the claim states it, fails: the sample menu has two enabled
    items; from no focused item the first call selects the first of them,
    and after two calls focus is on the second. *)
Lemma C7_counterexample :
  length (querySelectorAll Sample.page ENABLED_ITEM Sample.m1) = 2%nat
  ∧ ¬ (activeElement Sample.opened
       ∈ querySelectorAll Sample.page ENABLED_ITEM Sample.m1)
  ∧ activeElement (focusNextItem Sample.page 1 Sample.opened) = Sample.link
  ∧ activeElement (Nat.iter 2 (focusNextItem Sample.page 1) Sample.opened)
    = Sample.lastItem
  ∧ activeElement (Nat.iter 2 (focusNextItem Sample.page 1) Sample.opened)
    ≠ activeElement (focusNextItem Sample.page 1 Sample.opened).
Proof.
  vm_compute. repeat split; try discriminate. not_listed.
Qed.

(** C7 (amended): with [N >= 1] enabled items that can take focus and
    focus on none of them, [k + 1] calls of [focusNextItem(1)] put focus on
    the item at index [k mod N] and change nothing else; so [N] calls end on
    the last item, and it takes [N + 1] calls, that is [N] more after the
    first, to come back to the item the first call selected. *)
Theorem C7_focus_cycle doc st menu :
  activeMenu st = Some menu →
  let items := querySelectorAll doc ENABLED_ITEM menu in
  let N := length items in
  (1 ≤ N)%nat →
  (∀ it, it ∈ items → canFocus doc it st = true) →
  activeElement st ∉ items →
  (∀ k, ∃ it,
     items !! (k mod N)%nat = Some it
     ∧ Nat.iter (S k) (focusNextItem doc 1) st = setActiveElement it st)
  ∧ items !! 0%nat = Some (activeElement (focusNextItem doc 1 st))
  ∧ items !! (N - 1)%nat
    = Some (activeElement (Nat.iter N (focusNextItem doc 1) st))
  ∧ activeElement (Nat.iter (S N) (focusNextItem doc 1) st)
    = activeElement (focusNextItem doc 1 st).
Proof.
  intros Hopen items N HN Hfocus Hnone.
  pose proof (λ k, focusNextItem_iter doc st menu Hopen k HN Hfocus Hnone) as Hk.
  fold items in Hk. fold N in Hk.
  split; [exact Hk|].
  destruct (Hk 0%nat) as (it0 & Hit0 & H0).
  rewrite Nat.Div0.mod_0_l in Hit0. cbn [Nat.iter nat_rect] in H0.
  split; [by rewrite H0|]. split.
  - destruct (Hk (N - 1)%nat) as (it & Hit & H).
    rewrite Nat.mod_small in Hit by lia.
    replace (S (N - 1)) with N in H by lia. by rewrite H.
  - destruct (Hk N) as (it & Hit & H).
    rewrite Nat.Div0.mod_same in Hit. rewrite H, H0. cbn. congruence.
Qed.

Lemma C7_witness :
  activeElement (Nat.iter 3 (focusNextItem Sample.page 1) Sample.opened)
  = activeElement (focusNextItem Sample.page 1 Sample.opened).
Proof.
  apply (C7_focus_cycle Sample.page Sample.opened Sample.m1).
  - reflexivity.
  - vm_compute. lia.
  - intros it H. vm_compute in H.
    repeat (apply elem_of_cons in H as [->|H]; [reflexivity|]).
    by apply elem_of_nil in H.
  - vm_compute. not_listed.
Defined.

(** ** Consistency of the open-menu state *)

Lemma consistent_ext doc st st' :
  activeMenu st' = activeMenu st →
  showClass st' = showClass st →
  ariaExpanded st' = ariaExpanded st →
  bsContextMenuTrigger st' = bsContextMenuTrigger st →
  dispatched st' = dispatched st →
  consistent doc st → consistent doc st'.
Proof.
  unfold consistent, openPair. intros Ha Hs Hx Ht Hd.
  by rewrite Ha, Hs, Hx, Ht, Hd.
Qed.

Lemma sameMenuState_consistent doc st st' :
  sameMenuState st st' → consistent doc st → consistent doc st'.
Proof.
  intros (Ha & _ & Hs & Hx & Ht & Hd & _). by apply consistent_ext.
Qed.

Lemma hideActiveMenu_bsContextMenuTrigger doc st menu :
  activeMenu st = Some menu →
  bsContextMenuTrigger (hideActiveMenu doc st)
  = delete menu (bsContextMenuTrigger st).
Proof.
  intros H. unfold hideActiveMenu. rewrite H.
  destruct (bsContextMenuTrigger st !! _); [|done]. by unfold_focus.
Qed.

Lemma replay_snoc log n :
  replay (log ++ [n]) = cur ← replay log; lifecycle cur n.
Proof. unfold replay. by rewrite foldl_app. Qed.

Lemma consistent_openPair doc st menu trigger :
  consistent doc st → activeMenu st = Some menu →
  bsContextMenuTrigger st = {[menu := trigger]} →
  openPair st = Some (menu, trigger).
Proof.
  intros _ Ha Ht. unfold openPair. rewrite Ha, Ht. simpl.
  by rewrite lookup_singleton_eq.
Qed.

Lemma hideActiveMenu_consistent doc st :
  consistent doc st → consistent doc (hideActiveMenu doc st).
Proof.
  intros Hc. destruct (activeMenu st) as [menu|] eqn:Ha;
    [|by rewrite hideActiveMenu_closed].
  pose proof Hc as [Hopen Hlog]. rewrite Ha in Hopen.
  destruct Hopen as (_ & Hs & trigger & Ht & Hx).
  assert (Hlook : bsContextMenuTrigger st !! menu = Some trigger)
    by (by rewrite Ht, lookup_singleton_eq).
  unfold consistent, openPair.
  rewrite hideActiveMenu_activeMenu, (hideActiveMenu_showClass _ _ menu Ha),
    (hideActiveMenu_bsContextMenuTrigger _ _ menu Ha),
    (hideActiveMenu_ariaExpanded _ _ menu trigger Ha Hlook),
    (hideActiveMenu_dispatched _ _ menu Ha), Hlook, Hs, Ht.
  split; [split; [|split]|].
  - apply difference_diag_L.
  - apply delete_singleton_eq.
  - intros el. destruct (decide (el = trigger)) as [->|Hne].
    + by rewrite lookup_insert_eq.
    + rewrite lookup_insert_ne by done. by rewrite Hx.
  - rewrite replay_snoc, Hlog, (consistent_openPair doc st menu trigger) by done.
    simpl. by rewrite decide_True.
Qed.

Lemma showMenu_consistent doc menu x y trigger st :
  classListContains doc CONTEXT_MENU_CLASS menu = true →
  activeMenu st = None → consistent doc st →
  consistent doc (showMenu menu x y trigger st).
Proof.
  intros Hv Ha [Hclosed Hlog]. rewrite Ha in Hclosed.
  destruct Hclosed as (Hs & Ht & Hx).
  unfold consistent, openPair. cbn.
  rewrite Hs, Ht, insert_empty, lookup_singleton_eq. cbn.
  split; [split; [done|split]|].
  - apply (right_id_L ∅ (∪)).
  - exists trigger. split; [done|]. intros el.
    destruct (decide (el = trigger)) as [->|Hne].
    + by rewrite lookup_insert_eq.
    + rewrite lookup_insert_ne by done. split; [by intros ?%Hx|done].
  - rewrite replay_snoc, Hlog. unfold openPair. by rewrite Ha.
Qed.

Lemma show_after_hide_consistent doc menu x y trigger st :
  classListContains doc CONTEXT_MENU_CLASS menu = true →
  consistent doc st →
  consistent doc (showMenu menu x y trigger (hideActiveMenu doc st)).
Proof.
  intros Hv Hc. apply showMenu_consistent; [done| |].
  - apply hideActiveMenu_activeMenu.
  - by apply hideActiveMenu_consistent.
Qed.

Lemma handleClickOutside_consistent doc event st :
  consistent doc st → consistent doc (handleClickOutside doc event st).2.
Proof.
  intros H. unfold handleClickOutside. destruct (activeMenu st) eqn:Ha; [|done].
  assert (H' : consistent doc (setLastRightClickedElement None st))
    by (by apply (consistent_ext doc st)).
  destruct (contains _ _); [destruct (closest _ _ _)|]; cbn [snd]; try done;
    by apply hideActiveMenu_consistent.
Qed.

Lemma step_consistent doc i st :
  consistent doc st → consistent doc (step doc i st).
Proof.
  intros H.
  destruct i as [event|event|event| |w h| |menuOrId x y trigger|]; cbn [step].
  - unfold handleContextMenu.
    destruct (closest doc TRIGGER (target event)) as [trigger|];
      [|by apply (consistent_ext doc st)].
    destruct (getAttribute _ _ _) as [menuId|]; [|done].
    case_decide; [done|].
    destruct (getElementById _ _) as [menu|]; [|done].
    destruct (classListContains _ _ _) eqn:Hv; cbn [negb]; [|done].
    case_decide; cbn [snd].
    + apply hideActiveMenu_consistent. by apply (consistent_ext doc st).
    + apply show_after_hide_consistent; [done|].
      by apply (consistent_ext doc st).
  - by apply handleClickOutside_consistent.
  - unfold handleKeyDown. destruct (activeMenu st); [|done].
    repeat case_decide; cbn [snd]; try done;
      try (eapply sameMenuState_consistent;
           [apply focusNextItem_sameMenuState|done]).
    + by apply hideActiveMenu_consistent.
    + destruct (classListContains _ _ _); cbn [snd]; [|done].
      unfold click. destruct (matchesAt _ _ _); [done|].
      by apply handleClickOutside_consistent.
  - by apply hideActiveMenu_consistent.
  - apply hideActiveMenu_consistent. by apply (consistent_ext doc st).
  - eapply sameMenuState_consistent; [apply animationFrame_sameMenuState|done].
  - unfold show.
    destruct (match menuOrId with inl el => Some el | inr id => _ end)
      as [menu|]; [|done].
    destruct (classListContains _ _ _) eqn:Hv; [|done].
    by apply show_after_hide_consistent.
  - by apply hideActiveMenu_consistent.
Qed.

Lemma reachable_consistent doc st : reachable doc st → consistent doc st.
Proof.
  intros (w & h & inputs & ->). unfold run.
  assert (H0 : consistent doc (initial w h)).
  { split; [|done]. cbn. split; [done|]. split; [done|].
    intros el. by rewrite lookup_empty. }
  revert H0. generalize (initial w h).
  induction inputs as [|i inputs IH]; intros s Hs; [done|].
  simpl. apply IH. by apply step_consistent.
Qed.

Lemma reachable_step doc i st : reachable doc st → reachable doc (step doc i st).
Proof.
  intros (w & h & inputs & ->). exists w, h, (inputs ++ [i]).
  unfold run. by rewrite foldl_app.
Qed.

(** X1: in every reachable state at most one menu carries the [show]
    class, namely the active one, which is always a [.context-menu]
    element; the [_bsContextMenuTrigger] property is set on the active menu
    and on nothing else; with no active menu nothing is shown and no such
    property is left behind. *)
Theorem X1_one_menu_open doc st :
  reachable doc st →
  (∀ menu, activeMenu st = Some menu →
     classListContains doc CONTEXT_MENU_CLASS menu = true
     ∧ showClass st = {[menu]}
     ∧ ∃ trigger, bsContextMenuTrigger st = {[menu := trigger]})
  ∧ (activeMenu st = None →
     showClass st = ∅ ∧ bsContextMenuTrigger st = ∅)
  ∧ (∀ menu, menu ∈ showClass st ↔ getActiveMenu st = Some menu).
Proof.
  intros [Hopen _]%reachable_consistent. unfold getActiveMenu.
  destruct (activeMenu st) as [m|].
  - destruct Hopen as (Hv & Hs & trigger & Ht & _).
    split; [|split; [done|]].
    + intros menu [= <-]. split; [done|]. split; [done|]. by exists trigger.
    + intros menu. rewrite Hs, elem_of_singleton. split; congruence.
  - destruct Hopen as (Hs & Ht & _).
    split; [done|]. split; [done|].
    intros menu. rewrite Hs. split; [by intros ?%elem_of_empty|done].
Qed.

Lemma X1_witness :
  reachable Sample.page Sample.opened
  ∧ showClass Sample.opened = {[Sample.m1]}
  ∧ showClass (step Sample.page Scroll Sample.opened) = ∅.
Proof.
  assert (Hr : reachable Sample.page Sample.opened).
  { exists 1000, 800, [ContextMenu (mouseEvent Sample.btn 100 50)]. reflexivity. }
  split; [exact Hr|].
  destruct (X1_one_menu_open Sample.page Sample.opened Hr) as (Hopen & _).
  destruct (X1_one_menu_open Sample.page (step Sample.page Scroll Sample.opened))
    as (_ & Hclosed & _); [by apply reachable_step|].
  split.
  - by destruct (Hopen Sample.m1) as (_ & ? & _).
  - by destruct Hclosed.
Defined.

(** X2: in every reachable state the trigger of the open menu has
    [aria-expanded="true"]; any other element with [aria-expanded="true"]
    has it from the markup and has never had the attribute written by the
    script; and for an element the script has written, the attribute is
    ["true"] exactly when the element is the trigger of the open menu. *)
Theorem X2_aria_expanded_in_sync doc st el :
  reachable doc st →
  (∀ menu, activeMenu st = Some menu →
     bsContextMenuTrigger st !! menu = Some el →
     getAriaExpanded doc st el = Some "true"%string)
  ∧ (getAriaExpanded doc st el = Some "true"%string →
     (∃ menu, activeMenu st = Some menu
              ∧ bsContextMenuTrigger st !! menu = Some el)
     ∨ (ariaExpanded st !! el = None
        ∧ getAttribute doc "aria-expanded" el = Some "true"%string))
  ∧ (is_Some (ariaExpanded st !! el) →
     getAriaExpanded doc st el = Some "true"%string
     ↔ ∃ menu, activeMenu st = Some menu
               ∧ bsContextMenuTrigger st !! menu = Some el).
Proof.
  intros [Hopen _]%reachable_consistent.
  assert (Hsync : ariaExpanded st !! el = Some true
                  ↔ ∃ menu, activeMenu st = Some menu
                            ∧ bsContextMenuTrigger st !! menu = Some el).
  { destruct (activeMenu st) as [m|].
    - destruct Hopen as (_ & _ & trigger & Ht & Hx).
      rewrite Hx, Ht. split.
      + intros ->. exists m. by rewrite lookup_singleton_eq.
      + intros (menu & [= <-] & Hl). rewrite lookup_singleton_eq in Hl.
        congruence.
    - destruct Hopen as (_ & _ & Hx). split; [by intros ?%Hx|].
      by intros (menu & ? & _). }
  unfold getAriaExpanded. split; [|split].
  - intros menu Ha Ht.
    assert (ariaExpanded st !! el = Some true) as ->; [|done].
    apply Hsync. by exists menu.
  - destruct (ariaExpanded st !! el) as [[|]|]; [|done|auto].
    intros _. left. by apply Hsync.
  - intros [b Hb]. rewrite <-Hsync, Hb. destruct b; split; congruence.
Qed.

Lemma X2_witness :
  let closed := step Widgets.page Scroll Widgets.opened in
  getAriaExpanded Widgets.page (initial 1000 800) Widgets.trigger
  = Some "false"%string
  ∧ getAriaExpanded Widgets.page Widgets.opened Widgets.trigger
    = Some "true"%string
  ∧ getAriaExpanded Widgets.page closed Widgets.trigger ≠ Some "true"%string
  ∧ (getAriaExpanded Widgets.page Widgets.opened Widgets.toggle
     = Some "true"%string
     ∧ ariaExpanded Widgets.opened !! Widgets.toggle = None).
Proof.
  intros closed.
  assert (Hr : reachable Widgets.page Widgets.opened).
  { exists 1000, 800, [ContextMenu (mouseEvent Widgets.trigger 10 10)].
    reflexivity. }
  destruct (X2_aria_expanded_in_sync Widgets.page Widgets.opened
              Widgets.trigger Hr) as (Htrue & _ & _).
  destruct (X2_aria_expanded_in_sync Widgets.page closed Widgets.trigger
              (reachable_step _ Scroll _ Hr)) as (_ & _ & Hwritten).
  destruct (X2_aria_expanded_in_sync Widgets.page Widgets.opened
              Widgets.toggle Hr) as (_ & Hmarkup & _).
  split; [reflexivity|].
  split; [apply (Htrue Widgets.menu); reflexivity|].
  split.
  - intros H. apply Hwritten in H as (menu & Ha & _).
    + vm_compute in Ha. discriminate.
    + exists false. reflexivity.
  - destruct Hmarkup as [(menu & Ha & Ht)|[Hnone _]]; [reflexivity| |].
    + exfalso. vm_compute in Ha. injection Ha as <-.
      vm_compute in Ht. discriminate.
    + split; [reflexivity|exact Hnone].
Defined.

Lemma replay_prefix log log' r : replay (log ++ log') = Some r → is_Some (replay log).
Proof.
  unfold replay. rewrite foldl_app.
  destruct (foldl _ (Some None) log) as [cur|]; [by eexists|].
  intros H. exfalso. revert H. clear.
  induction log' as [|n l IH]; [done|exact IH].
Qed.

(** X3: to a listener the two notifications arrive as a strict
    alternation that starts with a [show]: replaying the dispatched events
    never meets a [show] while a menu is open nor a [hide] for anything but
    the menu and trigger of the [show] before it, and ends with the menu
    and trigger that are open now. *)
Theorem X3_notifications_alternate doc st :
  reachable doc st →
  replay (dispatched st) = Some (openPair st)
  ∧ (∀ n log, dispatched st = n :: log →
       ∃ menu trigger x y, n = ShowNotification menu trigger x y)
  ∧ (∀ log n1 n2 log', dispatched st = log ++ n1 :: n2 :: log' →
       match n1, n2 with
       | ShowNotification menu trigger _ _, HideNotification menu' trigger' =>
           menu' = menu ∧ trigger' = Some trigger
       | HideNotification _ _, ShowNotification _ _ _ _ => True
       | _, _ => False
       end).
Proof.
  intros [_ Hlog]%reachable_consistent. split; [exact Hlog|]. split.
  - intros n log Hd. rewrite Hd in Hlog.
    change (n :: log) with ([n] ++ log) in Hlog.
    apply replay_prefix in Hlog as [r Hr]. cbn in Hr.
    destruct n as [menu trigger x y|menu [t|]]; [|done..].
    by exists menu, trigger, x, y.
  - intros log n1 n2 log' Hd. rewrite Hd in Hlog.
    change (n1 :: n2 :: log') with ([n1; n2] ++ log') in Hlog.
    rewrite app_assoc in Hlog. apply replay_prefix in Hlog as [r Hr].
    change [n1; n2] with ([n1] ++ [n2]) in Hr.
    rewrite app_assoc, !replay_snoc in Hr.
    destruct (replay log) as [cur|]; [|done]. cbn in Hr.
    destruct n1 as [m t x y|m [t|]], cur as [open|]; cbn in Hr; try done.
    + destruct n2 as [m' t' x' y'|m' [t'|]]; cbn in Hr; try done.
      case_decide; [|done]. split; congruence.
    + case_decide; [|done]. cbn in Hr.
      by destruct n2 as [m' t' x' y'|m' [t'|]].
Qed.

Lemma X3_witness :
  let st := run Sample.page
              [ContextMenu (mouseEvent Sample.btn 100 50);
               ContextMenu (mouseEvent Sample.pic 300 200);
               Click (mouseEvent Sample.paragraph 500 400)] Sample.start in
  reachable Sample.page st ∧ replay (dispatched st) = Some None.
Proof.
  intros st.
  assert (Hr : reachable Sample.page st) by (by eexists _, _, _).
  split; [exact Hr|].
  by destruct (X3_notifications_alternate Sample.page st Hr) as [-> _].
Defined.

(** X4: whenever a menu is open, the demo's
    [BSContextMenu.getActiveMenu()._bsContextMenuTrigger] neither throws nor
    is unset: it is the trigger named in the latest notification, a [show]
    for the open menu, and that trigger is marked expanded. *)
Theorem X4_getTrigger doc st menu :
  reachable doc st →
  getActiveMenu st = Some menu →
  ∃ trigger x y,
    getTrigger st = Some (Some trigger)
    ∧ last (dispatched st) = Some (ShowNotification menu trigger x y)
    ∧ ariaExpanded st !! trigger = Some true.
Proof.
  unfold getActiveMenu. intros Hr Ha.
  pose proof (reachable_consistent doc st Hr) as [Hopen Hlog].
  rewrite Ha in Hopen. destruct Hopen as (_ & _ & trigger & Ht & Hx).
  assert (Hl : bsContextMenuTrigger st !! menu = Some trigger)
    by (by rewrite Ht, lookup_singleton_eq).
  unfold openPair in Hlog. rewrite Ha in Hlog. cbn in Hlog. rewrite Hl in Hlog.
  cbn in Hlog.
  revert Hlog. generalize (dispatched st). intros log.
  induction log as [|n l _] using rev_ind; intros Hlog; [done|].
  rewrite replay_snoc in Hlog. rewrite last_snoc.
  destruct (replay l) as [cur|]; [|done]. cbn in Hlog.
  destruct n as [m t x y|m [t|]], cur as [open|]; cbn in Hlog; try done.
  - injection Hlog as -> ->. exists trigger, x, y.
    unfold getTrigger, getActiveMenu. rewrite Ha. cbn. rewrite Hl.
    split; [done|]. split; [done|]. by apply Hx.
  - by case_decide.
Qed.

Lemma X4_witness :
  getTrigger (step Sample.page (ContextMenu (mouseEvent Sample.pic 300 200))
                Sample.opened) = Some (Some Sample.pic).
Proof.
  destruct (X4_getTrigger Sample.page
              (step Sample.page (ContextMenu (mouseEvent Sample.pic 300 200))
                 Sample.opened) Sample.m1)
    as (trigger & x & y & Hg & Hlast & _).
  - apply reachable_step.
    exists 1000, 800, [ContextMenu (mouseEvent Sample.btn 100 50)]. reflexivity.
  - vm_compute. reflexivity.
  - rewrite Hg. vm_compute in Hlast. by injection Hlast as <- _ _.
Defined.

(** ** More on secondary clicks *)

(** X5: a secondary click on a trigger whose attribute is empty, names no
    element, or names an element without the [context-menu] class does
    nothing at all: the event is untouched, so the native menu proceeds, no
    menu opens, a menu that is open stays open, and the toggle memory is
    kept. *)
Theorem X5_unresolvable_reference doc event st trigger :
  closest doc TRIGGER (target event) = Some trigger →
  getAttribute doc CONTEXT_MENU_ATTR trigger = Some ""%string
  ∨ (∃ menuId,
       getAttribute doc CONTEXT_MENU_ATTR trigger = Some menuId
       ∧ (getElementById doc menuId = None
          ∨ ∃ el, getElementById doc menuId = Some el
                  ∧ classListContains doc CONTEXT_MENU_CLASS el = false)) →
  handleContextMenu doc event st = (event, st).
Proof.
  intros Hc Hbad. unfold handleContextMenu. rewrite Hc.
  destruct Hbad as [->|(menuId & -> & Hres)]; [by rewrite decide_True|].
  case_decide; [done|].
  destruct Hres as [->|(el & -> & ->)]; done.
Qed.

Lemma X5_witness :
  handleContextMenu Triggers.page (mouseEvent Triggers.button 10 10) Sample.opened
  = (mouseEvent Triggers.button 10 10, Sample.opened)
  ∧ handleContextMenu Sample.page (mouseEvent Sample.btn 10 10)
      (setLastRightClickedElement None Sample.opened)
    ≠ (mouseEvent Sample.btn 10 10, setLastRightClickedElement None Sample.opened).
Proof.
  split.
  - apply (X5_unresolvable_reference Triggers.page _ _ Triggers.button);
      [reflexivity|].
    right. exists "m1"%string. split; [reflexivity|]. left. reflexivity.
  - intros H. apply (f_equal (λ r, defaultPrevented r.1)) in H.
    vm_compute in H. discriminate.
Defined.

(** X6: the handler prevents the default action and stops propagation
    exactly in the branch that shows a menu.  In every other branch the
    event comes back untouched and no menu is opened: the state is
    unchanged, or only the toggle memory is cleared, or (second consecutive
    click) the memory is cleared and the open menu hidden. *)
Theorem X6_suppression_only_with_show doc event st :
  let r := handleContextMenu doc event st in
  (r.1 = event
   ∧ (r.2 = st
      ∨ r.2 = setLastRightClickedElement None st
      ∨ r.2 = hideActiveMenu doc (setLastRightClickedElement None st))
   ∧ (activeMenu r.2 = activeMenu st ∨ activeMenu r.2 = None))
  ∨ (r.1 = stopPropagation (preventDefault event)
     ∧ ∃ menu trigger,
         closest doc TRIGGER (target event) = Some trigger
         ∧ classListContains doc CONTEXT_MENU_CLASS menu = true
         ∧ r.2 = showMenu menu (clientX event) (clientY event) trigger
                   (hideActiveMenu doc
                      (setLastRightClickedElement (Some trigger) st))
         ∧ activeMenu r.2 = Some menu
         ∧ last (dispatched r.2)
           = Some (ShowNotification menu trigger (clientX event) (clientY event))).
Proof.
  intros r. subst r. unfold handleContextMenu.
  destruct (closest doc TRIGGER (target event)) as [trigger|];
    [|left; cbn; auto].
  destruct (getAttribute _ _ _) as [menuId|]; [|left; cbn; auto].
  case_decide; [left; cbn; auto|].
  destruct (getElementById _ _) as [menu|]; [|left; cbn; auto].
  destruct (classListContains _ _ _) eqn:Hv; cbn [negb]; [|left; cbn; auto].
  case_decide.
  - left. cbn [fst snd]. split; [done|]. split; [auto|].
    right. apply hideActiveMenu_activeMenu.
  - right. cbn [fst snd]. split; [done|]. exists menu, trigger.
    split; [done|]. split; [done|]. split; [done|]. split; [done|].
    cbn. apply last_snoc.
Qed.

(** X7: a secondary click on a bound trigger [B] that is not the
    remembered one, while a menu is open, replaces it: the old menu's
    [hide] notification, with the old trigger, is dispatched first and the
    new menu's [show] notification, with [B] and the pointer position,
    right after it; the new menu is the only one shown, [B] is its trigger
    and the remembered element, and the default action is prevented. *)
Theorem X7_retrigger_elsewhere doc event st old B menuId menu :
  reachable doc st →
  activeMenu st = Some old →
  closest doc TRIGGER (target event) = Some B →
  getAttribute doc CONTEXT_MENU_ATTR B = Some menuId →
  menuId ≠ ""%string →
  getElementById doc menuId = Some menu →
  classListContains doc CONTEXT_MENU_CLASS menu = true →
  lastRightClickedElement st ≠ Some B →
  let r := handleContextMenu doc event st in
  ∃ A,
    bsContextMenuTrigger st !! old = Some A
    ∧ dispatched r.2
      = dispatched st
        ++ [HideNotification old (Some A);
            ShowNotification menu B (clientX event) (clientY event)]
    ∧ activeMenu r.2 = Some menu
    ∧ showClass r.2 = {[menu]}
    ∧ getTrigger r.2 = Some (Some B)
    ∧ lastRightClickedElement r.2 = Some B
    ∧ defaultPrevented r.1 = true
    ∧ styleLeft r.2 !! menu = Some (clientX event)
    ∧ styleTop r.2 !! menu = Some (clientY event).
Proof.
  intros Hr Ha Hc Hb Hne Hres Hv Hl r.
  pose proof (reachable_consistent doc st Hr) as Hcons.
  pose proof Hcons as [Hopen _]. rewrite Ha in Hopen.
  destruct Hopen as (_ & _ & A & Ht & _).
  assert (HA : bsContextMenuTrigger st !! old = Some A)
    by (by rewrite Ht, lookup_singleton_eq).
  exists A. split; [done|].
  assert (Hr2 : r.2 = showMenu menu (clientX event) (clientY event) B
                        (hideActiveMenu doc
                           (setLastRightClickedElement (Some B) st))).
  { subst r. by rewrite (handleContextMenu_custom doc B menu menuId). }
  assert (Hcons' : consistent doc r.2).
  { rewrite Hr2. apply show_after_hide_consistent; [done|].
    by apply (consistent_ext doc st). }
  assert (Ha' : activeMenu r.2 = Some menu) by (by rewrite Hr2).
  assert (Ht' : bsContextMenuTrigger r.2 !! menu = Some B)
    by (rewrite Hr2; apply lookup_insert_eq).
  split.
  { rewrite Hr2, hideActiveMenu_setLastRightClickedElement. cbn.
    rewrite (hideActiveMenu_dispatched doc st old Ha), HA.
    by rewrite <-app_assoc. }
  split; [done|]. split.
  { destruct Hcons' as [Hopen' _]. rewrite Ha' in Hopen'.
    by destruct Hopen' as (_ & ? & _). }
  split; [by unfold getTrigger, getActiveMenu; rewrite Ha'; cbn; rewrite Ht'|].
  split.
  { rewrite Hr2. change (lastRightClickedElement
                           (hideActiveMenu doc
                              (setLastRightClickedElement (Some B) st)) = Some B).
    by rewrite hideActiveMenu_lastRightClickedElement. }
  split; [by subst r; rewrite (handleContextMenu_custom doc B menu menuId)|].
  rewrite Hr2. split; apply lookup_insert_eq.
Qed.

Lemma X7_witness :
  let r := handleContextMenu Sample.page (mouseEvent Sample.pic 300 200)
             Sample.opened in
  dispatched r.2
  = dispatched Sample.opened
    ++ [HideNotification Sample.m1 (Some Sample.btn);
        ShowNotification Sample.m1 Sample.pic 300 200].
Proof.
  destruct (X7_retrigger_elsewhere Sample.page (mouseEvent Sample.pic 300 200)
              Sample.opened Sample.m1 Sample.pic "m1"%string Sample.m1)
    as (A & HA & Hd & _);
    [|reflexivity|reflexivity|reflexivity|discriminate|reflexivity|reflexivity
     |discriminate|].
  - exists 1000, 800, [ContextMenu (mouseEvent Sample.btn 100 50)]. reflexivity.
  - vm_compute in HA. injection HA as <-. exact Hd.
Defined.

(** ** More on hiding *)

Lemma hideActiveMenu_activeElement doc st menu trigger :
  activeMenu st = Some menu → bsContextMenuTrigger st !! menu = Some trigger →
  activeElement (hideActiveMenu doc st)
  = if canFocus doc trigger st then trigger else activeElement st.
Proof.
  intros Ha Ht. unfold hideActiveMenu. rewrite Ha, Ht. unfold focus.
  set (s := setAriaExpanded _ st).
  change (canFocus doc trigger s) with (canFocus doc trigger st).
  by destruct (canFocus doc trigger st).
Qed.

Lemma hideActiveMenu_style doc st :
  styleLeft (hideActiveMenu doc st) = styleLeft st
  ∧ styleTop (hideActiveMenu doc st) = styleTop st.
Proof.
  unfold hideActiveMenu. destruct (activeMenu st); [|done].
  destruct (bsContextMenuTrigger st !! _); [|done]. by unfold_focus.
Qed.

Lemma hideActiveMenu_setViewport doc w h st :
  hideActiveMenu doc (setViewport w h st)
  = setViewport w h (hideActiveMenu doc st).
Proof.
  unfold hideActiveMenu.
  change (activeMenu (setViewport w h st)) with (activeMenu st).
  change (bsContextMenuTrigger (setViewport w h st))
    with (bsContextMenuTrigger st).
  destruct (activeMenu st) as [menu|]; [|reflexivity].
  destruct (bsContextMenuTrigger st !! menu) as [t|]; [|reflexivity].
  unfold focus.
  set (a := setAriaExpanded _ (setViewport w h st)).
  set (b := setAriaExpanded _ st).
  change (canFocus doc t a) with (canFocus doc t b).
  destruct (canFocus doc t b); reflexivity.
Qed.

(** What [hideActiveMenu] does to an open menu in a reachable state. *)
Lemma hideActiveMenu_open doc st menu :
  reachable doc st →
  activeMenu st = Some menu →
  ∃ trigger,
    bsContextMenuTrigger st !! menu = Some trigger
    ∧ showClass (hideActiveMenu doc st) = ∅
    ∧ bsContextMenuTrigger (hideActiveMenu doc st) = ∅
    ∧ ariaExpanded (hideActiveMenu doc st) !! trigger = Some false
    ∧ dispatched (hideActiveMenu doc st)
      = dispatched st ++ [HideNotification menu (Some trigger)]
    ∧ activeElement (hideActiveMenu doc st)
      = (if canFocus doc trigger st then trigger else activeElement st).
Proof.
  intros Hr Ha.
  pose proof (reachable_consistent doc st Hr) as Hcons.
  pose proof (hideActiveMenu_consistent doc st Hcons) as [Hclosed _].
  rewrite hideActiveMenu_activeMenu in Hclosed.
  destruct Hclosed as (Hs & Ht & _).
  destruct Hcons as [Hopen _]. rewrite Ha in Hopen.
  destruct Hopen as (_ & _ & trigger & Hmap & _).
  assert (Hl : bsContextMenuTrigger st !! menu = Some trigger)
    by (by rewrite Hmap, lookup_singleton_eq).
  exists trigger. split; [done|]. split; [done|]. split; [done|].
  split; [rewrite (hideActiveMenu_ariaExpanded _ _ menu trigger) by done;
          apply lookup_insert_eq|].
  split; [by rewrite (hideActiveMenu_dispatched _ _ menu), Hl|].
  by apply (hideActiveMenu_activeElement doc st menu).
Qed.

(** X8: hiding an open menu, in a reachable state, marks its trigger
    collapsed, gives focus back to the trigger when the trigger can take
    focus, takes the [show] class and the [_bsContextMenuTrigger] property
    away, dispatches one [hide] notification naming the trigger, and leaves
    the menu's left and top where they were.  A scroll, [BSContextMenu.hide()]
    and the Escape key do exactly this, Escape also preventing its default
    action; a resize does it in the resized viewport. *)
Theorem X8_hide_restores_trigger doc st menu :
  reachable doc st →
  activeMenu st = Some menu →
  ∃ trigger,
    bsContextMenuTrigger st !! menu = Some trigger
    ∧ getActiveMenu (hideActiveMenu doc st) = None
    ∧ showClass (hideActiveMenu doc st) = ∅
    ∧ bsContextMenuTrigger (hideActiveMenu doc st) = ∅
    ∧ ariaExpanded (hideActiveMenu doc st) !! trigger = Some false
    ∧ dispatched (hideActiveMenu doc st)
      = dispatched st ++ [HideNotification menu (Some trigger)]
    ∧ activeElement (hideActiveMenu doc st)
      = (if canFocus doc trigger st then trigger else activeElement st)
    ∧ styleLeft (hideActiveMenu doc st) = styleLeft st
    ∧ styleTop (hideActiveMenu doc st) = styleTop st
    ∧ step doc Scroll st = hideActiveMenu doc st
    ∧ step doc ApiHide st = hideActiveMenu doc st
    ∧ (∀ w h, step doc (Resize w h) st = setViewport w h (hideActiveMenu doc st))
    ∧ (∀ event, key event = "Escape"%string →
         handleKeyDown doc event st
         = (preventDefault event, hideActiveMenu doc st)).
Proof.
  intros Hr Ha.
  destruct (hideActiveMenu_open doc st menu Hr Ha)
    as (trigger & Hl & Hs & Ht & Hx & Hd & Hf).
  exists trigger. split; [done|].
  split; [apply hideActiveMenu_activeMenu|].
  do 5 (split; [done|]).
  split; [apply hideActiveMenu_style|]. split; [apply hideActiveMenu_style|].
  split; [done|]. split; [done|].
  split; [intros w h; apply hideActiveMenu_setViewport|].
  intros event Hk. unfold handleKeyDown. by rewrite Ha, decide_True.
Qed.

Lemma X8_witness :
  activeElement (step Sample.page Scroll Sample.opened) = Sample.btn
  ∧ handleKeyDown Sample.page (keyboardEvent Sample.link "Escape" false)
      Sample.opened
    = (preventDefault (keyboardEvent Sample.link "Escape" false),
       hideActiveMenu Sample.page Sample.opened).
Proof.
  destruct (X8_hide_restores_trigger Sample.page Sample.opened Sample.m1)
    as (trigger & Ht & _ & _ & _ & _ & _ & Hfocus & _ & _ & Hscroll & _ & _ & Hesc).
  - exists 1000, 800, [ContextMenu (mouseEvent Sample.btn 100 50)]. reflexivity.
  - reflexivity.
  - vm_compute in Ht. injection Ht as <-.
    split; [rewrite Hscroll, Hfocus; reflexivity|].
    apply Hesc. reflexivity.
Defined.

(** ** More on primary clicks *)

(** X9: a primary click outside the open menu, the trigger included,
    closes the menu (one [hide] notification, trigger collapsed, toggle
    memory cleared) and leaves the click event untouched, so whatever was
    clicked still gets the click's default action. *)
Theorem X9_click_outside doc event st menu :
  reachable doc st →
  activeMenu st = Some menu →
  contains menu (target event) = false →
  let r := handleClickOutside doc event st in
  r.1 = event
  ∧ activeMenu r.2 = None
  ∧ showClass r.2 = ∅
  ∧ lastRightClickedElement r.2 = None
  ∧ ∃ trigger,
      dispatched r.2 = dispatched st ++ [HideNotification menu (Some trigger)]
      ∧ ariaExpanded r.2 !! trigger = Some false.
Proof.
  intros Hr Ha Hout r.
  assert (Hr2 : r = (event, hideActiveMenu doc (setLastRightClickedElement None st))).
  { subst r. unfold handleClickOutside. by rewrite Ha, Hout. }
  rewrite Hr2. cbn [fst snd]. rewrite hideActiveMenu_setLastRightClickedElement.
  destruct (hideActiveMenu_open doc st menu Hr Ha)
    as (trigger & _ & Hs & _ & Hx & Hd & _).
  split; [done|]. split; [apply hideActiveMenu_activeMenu|].
  split; [exact Hs|]. split; [done|]. by exists trigger.
Qed.

Lemma X9_witness :
  let r := handleClickOutside Sample.page (mouseEvent Sample.btn 40 15)
             Sample.opened in
  r.1 = mouseEvent Sample.btn 40 15 ∧ activeMenu r.2 = None.
Proof.
  destruct (X9_click_outside Sample.page (mouseEvent Sample.btn 40 15)
              Sample.opened Sample.m1) as (He & Ha & _);
    [|reflexivity|reflexivity|by split].
  exists 1000, 800, [ContextMenu (mouseEvent Sample.btn 100 50)]. reflexivity.
Defined.

(** ** More on the keyboard *)

(** X10: the key handler swallows a key exactly when a menu is open and
    the key is Escape, ArrowDown, ArrowUp or Tab, or is Enter or Space while
    the focused element has the [dropdown-item] class.  In every other case,
    and always while no menu is open, it returns the event and the state
    exactly as they were. *)
Theorem X10_keys_swallowed doc event st :
  let handled :=
    key event ∈ ["Escape"; "ArrowDown"; "ArrowUp"; "Tab"]%string
    ∨ (key event ∈ ["Enter"; " "]%string
       ∧ classListContains doc "dropdown-item" (activeElement st) = true) in
  (is_Some (activeMenu st) ∧ handled →
     (handleKeyDown doc event st).1 = preventDefault event)
  ∧ (¬ (is_Some (activeMenu st) ∧ handled) →
     handleKeyDown doc event st = (event, st)).
Proof.
  intros handled. subst handled. unfold handleKeyDown.
  rewrite !elem_of_cons, !elem_of_nil.
  destruct (activeMenu st) as [menu|]; [|split; [by intros [[? [=]] _]|done]].
  split.
  - intros [_ Hk]. repeat case_decide; try done.
    + destruct (classListContains _ _ _); [done|]. intuition congruence.
    + intuition congruence.
  - intros Hn. repeat case_decide; try (exfalso; apply Hn; split; [done|]; tauto).
    + destruct (classListContains _ _ _) eqn:Hc; [|done].
      exfalso. apply Hn. split; [done|]. right. split; [tauto|done].
    + done.
Qed.

Lemma X10_witness :
  (handleKeyDown Sample.page (keyboardEvent Sample.link "ArrowDown" false)
     Sample.opened).1
  = preventDefault (keyboardEvent Sample.link "ArrowDown" false)
  ∧ handleKeyDown Sample.page (keyboardEvent Sample.link "a" false) Sample.opened
    = (keyboardEvent Sample.link "a" false, Sample.opened)
  ∧ handleKeyDown Sample.page (keyboardEvent Sample.btn "Enter" false)
      Sample.opened
    = (keyboardEvent Sample.btn "Enter" false, Sample.opened)
  ∧ handleKeyDown Sample.page (keyboardEvent Sample.btn "Escape" false)
      Sample.start
    = (keyboardEvent Sample.btn "Escape" false, Sample.start).
Proof.
  split; [|split; [|split]].
  - apply (X10_keys_swallowed Sample.page). split; [by eexists|].
    left. cbn. rewrite !elem_of_cons. auto.
  - apply (X10_keys_swallowed Sample.page). cbn.
    rewrite !elem_of_cons, !elem_of_nil.
    intros [_ [[?|[?|[?|[?|[]]]]]|[[?|[?|[]]] _]]]; discriminate.
  - apply (X10_keys_swallowed Sample.page). cbn.
    intros [_ [H|[_ H]]]; [|vm_compute in H; discriminate].
    rewrite !elem_of_cons, elem_of_nil in H.
    destruct H as [?|[?|[?|[?|[]]]]]; discriminate.
  - apply (X10_keys_swallowed Sample.page). by intros [[? [=]] _].
Defined.

(** X11: with a menu open, Tab and Shift+Tab never let focus leave the
    menu: the default action is prevented, Tab does what ArrowDown does and
    Shift+Tab what ArrowUp does, focus either stays where it is or lands on
    one of the open menu's enabled items, and nothing else in the state
    changes. *)
Theorem X11_tab_is_trapped doc event st menu :
  activeMenu st = Some menu →
  key event = "Tab"%string →
  let r := handleKeyDown doc event st in
  let arrow := if shiftKey event then "ArrowUp"%string else "ArrowDown"%string in
  r.1 = preventDefault event
  ∧ r.2 = (handleKeyDown doc (keyboardEvent (target event) arrow false) st).2
  ∧ (activeElement r.2 = activeElement st
     ∨ activeElement r.2 ∈ querySelectorAll doc ENABLED_ITEM menu)
  ∧ r.2 = setActiveElement (activeElement r.2) st.
Proof.
  intros Ha Hk r arrow.
  assert (Hr : r = (preventDefault event,
                    focusNextItem doc (if shiftKey event then -1 else 1) st)).
  { subst r. unfold handleKeyDown. rewrite Ha, Hk.
    repeat (rewrite decide_False by (intros H; intuition discriminate)).
    by rewrite decide_True. }
  rewrite Hr. cbn [fst snd]. split; [done|]. split.
  { subst arrow. unfold handleKeyDown. rewrite Ha.
    destruct (shiftKey event); cbn [key keyboardEvent].
    - rewrite decide_False, decide_False by done. by rewrite decide_True.
    - rewrite decide_False by done. by rewrite decide_True. }
  unfold focusNextItem.
  destruct (nextItem doc _ st) as [it|] eqn:Hn.
  - apply (nextItem_elem doc st menu Ha) in Hn. unfold focus.
    destruct (canFocus doc it st); cbn; [auto|].
    split; [auto|]. by destruct st.
  - split; [auto|]. by destruct st.
Qed.

Lemma X11_witness :
  activeElement
    (handleKeyDown Sample.page (keyboardEvent Sample.btn "Tab" false)
       Sample.opened).2 = Sample.link
  ∧ activeElement
      (handleKeyDown Sample.page (keyboardEvent Sample.btn "Tab" true)
         Sample.opened).2 = Sample.lastItem.
Proof.
  destruct (X11_tab_is_trapped Sample.page (keyboardEvent Sample.btn "Tab" false)
              Sample.opened Sample.m1) as (_ & -> & _); [reflexivity..|].
  destruct (X11_tab_is_trapped Sample.page (keyboardEvent Sample.btn "Tab" true)
              Sample.opened Sample.m1) as (_ & -> & _); [reflexivity..|].
  split; reflexivity.
Defined.

Lemma closest_self doc s h : matchesAt doc s h = true → closest doc s h = Some h.
Proof. intros H. destruct h; cbn [closest]; by rewrite H. Qed.

(** X12: Enter or Space with a menu open acts only when the focused
    element has the [dropdown-item] class; it then prevents the key's
    default action and clicks the element, which (unless the element is a
    disabled form control, whose click does nothing) clears the toggle
    memory and hides the menu, exactly as a pointer click on it would. *)
Theorem X12_enter_activates doc event st menu :
  activeMenu st = Some menu →
  key event = "Enter"%string ∨ key event = " "%string →
  let focused := activeElement st in
  let r := handleKeyDown doc event st in
  (classListContains doc "dropdown-item" focused = false → r = (event, st))
  ∧ (classListContains doc "dropdown-item" focused = true →
     r.1 = preventDefault event
     ∧ (matchesAt doc SelDisabled focused = true → r.2 = st)
     ∧ (matchesAt doc SelDisabled focused = false →
        r.2 = (handleClickOutside doc (mouseEvent focused 0 0) st).2
        ∧ r.2 = hideActiveMenu doc (setLastRightClickedElement None st)
        ∧ activeMenu r.2 = None
        ∧ lastRightClickedElement r.2 = None)).
Proof.
  intros Ha Hk focused r.
  assert (Hr : r = if classListContains doc "dropdown-item" focused
                   then (preventDefault event, click doc focused st)
                   else (event, st)).
  { subst r. unfold handleKeyDown. rewrite Ha.
    destruct Hk as [Hk|Hk]; rewrite Hk;
      repeat (rewrite decide_False by (intros H; intuition discriminate));
      by rewrite decide_True by auto. }
  rewrite Hr. split; [by intros ->|]. intros Hitem. rewrite Hitem. cbn [fst snd].
  split; [done|]. unfold click. split; [by intros ->|]. intros ->.
  assert (Hclick : (handleClickOutside doc (mouseEvent focused 0 0) st).2
                   = hideActiveMenu doc (setLastRightClickedElement None st)).
  { unfold handleClickOutside. rewrite Ha. cbn [target mouseEvent].
    destruct (contains menu focused); [|done].
    by rewrite (closest_self doc ITEM focused Hitem). }
  split; [done|]. rewrite Hclick. split; [done|].
  split; [apply hideActiveMenu_activeMenu|].
  by rewrite hideActiveMenu_lastRightClickedElement.
Qed.

Lemma X12_witness :
  let focused := setActiveElement Sample.lastItem Sample.opened in
  activeMenu
    (handleKeyDown Sample.page (keyboardEvent Sample.lastItem "Enter" false)
       focused).2 = None
  ∧ handleKeyDown Sample.page (keyboardEvent Sample.btn " " false) Sample.opened
    = (keyboardEvent Sample.btn " " false, Sample.opened).
Proof.
  intros focused.
  destruct (X12_enter_activates Sample.page
              (keyboardEvent Sample.lastItem "Enter" false) focused Sample.m1)
    as [_ Hitem]; [reflexivity|by left|].
  destruct (X12_enter_activates Sample.page
              (keyboardEvent Sample.btn " " false) Sample.opened Sample.m1)
    as [Hother _]; [reflexivity|by right|].
  split; [|by apply Hother].
  destruct Hitem as (_ & _ & Hact); [reflexivity|].
  by destruct Hact as (_ & _ & ? & _).
Defined.

(** ** More on navigation *)

Lemma index_forward (i N : nat) :
  (i < N)%nat →
  Z.rem (Z.of_nat i + 1 + Z.of_nat N) (Z.of_nat N) = Z.of_nat ((i + 1) mod N).
Proof.
  intros Hi. rewrite Z.rem_mod_nonneg by lia. rewrite Nat2Z.inj_mod.
  replace (Z.of_nat i + 1 + Z.of_nat N)
    with (Z.of_nat (i + 1) + 1 * Z.of_nat N) by lia.
  apply Z_mod_plus_full.
Qed.

Lemma index_backward (i N : nat) :
  (i < N)%nat →
  Z.rem (Z.of_nat i + -1 + Z.of_nat N) (Z.of_nat N)
  = Z.of_nat ((i + N - 1) mod N).
Proof.
  intros Hi. rewrite Z.rem_mod_nonneg by lia. rewrite Nat2Z.inj_mod.
  f_equal. lia.
Qed.

Lemma index_forward_backward (i N : nat) :
  (i < N)%nat → (((i + 1) mod N + N - 1) mod N = i)%nat.
Proof.
  intros Hi. destruct (decide (i + 1 = N)%nat) as [<-|Hne].
  - rewrite Nat.Div0.mod_same. rewrite Nat.mod_small by lia. lia.
  - rewrite (Nat.mod_small (i + 1)) by lia.
    replace (i + 1 + N - 1)%nat with (i + 1 * N)%nat by lia.
    rewrite Nat.Div0.mod_add. apply Nat.mod_small. lia.
Qed.

Lemma index_backward_forward (i N : nat) :
  (i < N)%nat → (((i + N - 1) mod N + 1) mod N = i)%nat.
Proof.
  intros Hi. destruct i as [|i].
  - rewrite (Nat.mod_small (0 + N - 1)) by lia.
    replace (0 + N - 1 + 1)%nat with N by lia. apply Nat.Div0.mod_same.
  - replace (S i + N - 1)%nat with (i + 1 * N)%nat by lia.
    rewrite Nat.Div0.mod_add, (Nat.mod_small i) by lia.
    rewrite Nat.mod_small; lia.
Qed.

(** The item [focusNextItem] selects from the item at index [i]. *)
Lemma nextItem_at doc st menu i it :
  activeMenu st = Some menu →
  querySelectorAll doc ENABLED_ITEM menu !! i = Some it →
  activeElement st = it →
  nextItem doc 1 st
  = querySelectorAll doc ENABLED_ITEM menu
    !! ((i + 1) mod length (querySelectorAll doc ENABLED_ITEM menu))%nat
  ∧ nextItem doc (-1) st
    = querySelectorAll doc ENABLED_ITEM menu
      !! ((i + length (querySelectorAll doc ENABLED_ITEM menu) - 1)
          mod length (querySelectorAll doc ENABLED_ITEM menu))%nat.
Proof.
  intros Ha Hit He. unfold nextItem. rewrite Ha, He.
  pose proof (lookup_lt_Some _ _ _ Hit) as Hi.
  destruct (Z.eqb_spec (Z.of_nat (length (querySelectorAll doc ENABLED_ITEM menu))) 0);
    [lia|].
  rewrite (indexOf_lookup _ i it (querySelectorAll_NoDup _ _ _) Hit).
  destruct (Z.eqb_spec (Z.of_nat i) (-1)); [lia|].
  rewrite index_forward, index_backward by done.
  by rewrite !item_of_nat.
Qed.

(** X13: from the enabled item at index [i] of [N] that can all take
    focus, ArrowDown's [focusNextItem(1)] moves focus to index
    [(i + 1) mod N] and ArrowUp's [focusNextItem(-1)] to index
    [(i + N - 1) mod N], changing nothing else; so the last item wraps to
    the first and the first to the last, and a step one way followed by a
    step the other way restores the state exactly. *)
Theorem X13_arrows_step_and_return doc st menu i it :
  activeMenu st = Some menu →
  let items := querySelectorAll doc ENABLED_ITEM menu in
  let N := length items in
  items !! i = Some it →
  activeElement st = it →
  (∀ el, el ∈ items → canFocus doc el st = true) →
  ∃ next prev,
    items !! ((i + 1) mod N)%nat = Some next
    ∧ items !! ((i + N - 1) mod N)%nat = Some prev
    ∧ focusNextItem doc 1 st = setActiveElement next st
    ∧ focusNextItem doc (-1) st = setActiveElement prev st
    ∧ (S i = N → items !! 0%nat = Some next)
    ∧ (i = 0%nat → items !! (N - 1)%nat = Some prev)
    ∧ focusNextItem doc (-1) (focusNextItem doc 1 st) = st
    ∧ focusNextItem doc 1 (focusNextItem doc (-1) st) = st.
Proof.
  intros Ha items N Hit He Hfocus.
  pose proof (lookup_lt_Some _ _ _ Hit) as Hi. fold N in Hi.
  destruct (lookup_lt_is_Some_2 items ((i + 1) mod N)%nat) as [next Hnext];
    [apply Nat.mod_upper_bound; lia|].
  destruct (lookup_lt_is_Some_2 items ((i + N - 1) mod N)%nat) as [prev Hprev];
    [apply Nat.mod_upper_bound; lia|].
  exists next, prev.
  assert (Hcan : ∀ s el, showClass s = showClass st → el ∈ items →
                   canFocus doc el s = true).
  { intros s el Hshow Hel. unfold canFocus. rewrite Hshow. by apply Hfocus. }
  assert (Hfwd : ∀ s j el next',
            activeMenu s = Some menu → showClass s = showClass st →
            items !! j = Some el → activeElement s = el →
            items !! ((j + 1) mod N)%nat = Some next' →
            focusNextItem doc 1 s = setActiveElement next' s).
  { intros s j el next' Has Hshow Hj Hes Hn.
    destruct (nextItem_at doc s menu j el Has Hj Hes) as [H1 _].
    fold items in H1. fold N in H1. unfold focusNextItem, focus.
    rewrite H1, Hn, Hcan; [done..|]. by eapply list_elem_of_lookup_2. }
  assert (Hbwd : ∀ s j el prev',
            activeMenu s = Some menu → showClass s = showClass st →
            items !! j = Some el → activeElement s = el →
            items !! ((j + N - 1) mod N)%nat = Some prev' →
            focusNextItem doc (-1) s = setActiveElement prev' s).
  { intros s j el prev' Has Hshow Hj Hes Hp.
    destruct (nextItem_at doc s menu j el Has Hj Hes) as [_ H2].
    fold items in H2. fold N in H2. unfold focusNextItem, focus.
    rewrite H2, Hp, Hcan; [done..|]. by eapply list_elem_of_lookup_2. }
  assert (Hst : setActiveElement it st = st) by (destruct st; cbn in *; by subst).
  pose proof (Hfwd st i it next Ha eq_refl Hit He Hnext) as H1.
  pose proof (Hbwd st i it prev Ha eq_refl Hit He Hprev) as H2.
  split; [done|]. split; [done|]. split; [done|]. split; [done|].
  split.
  { intros HN. rewrite <-HN in Hnext.
    replace (i + 1)%nat with (S i) in Hnext by lia.
    by rewrite Nat.Div0.mod_same in Hnext. }
  split.
  { intros ->. by rewrite Nat.mod_small in Hprev by lia. }
  split.
  - rewrite H1.
    rewrite (Hbwd (setActiveElement next st) ((i + 1) mod N)%nat next it);
      [exact Hst|done..|].
    by rewrite index_forward_backward.
  - rewrite H2.
    rewrite (Hfwd (setActiveElement prev st) ((i + N - 1) mod N)%nat prev it);
      [exact Hst|done..|].
    by rewrite index_backward_forward.
Qed.

Lemma X13_witness :
  let st := setActiveElement Sample.link Sample.opened in
  activeElement (focusNextItem Sample.page 1 st) = Sample.lastItem
  ∧ activeElement (focusNextItem Sample.page (-1) st) = Sample.lastItem
  ∧ focusNextItem Sample.page (-1) (focusNextItem Sample.page 1 st) = st.
Proof.
  intros st.
  destruct (X13_arrows_step_and_return Sample.page st Sample.m1 0 Sample.link)
    as (next & prev & Hn & Hp & -> & -> & _ & _ & Hback & _).
  - reflexivity.
  - reflexivity.
  - reflexivity.
  - intros el H. vm_compute in H.
    repeat (apply elem_of_cons in H as [->|H]; [reflexivity|]).
    by apply elem_of_nil in H.
  - vm_compute in Hn, Hp. injection Hn as <-. injection Hp as <-.
    split; [reflexivity|]. split; [reflexivity|exact Hback].
Defined.

(** ** The programmatic API *)

Lemma showMenu_after_hide_fields doc menu x y trigger st :
  let st' := showMenu menu x y trigger (hideActiveMenu doc st) in
  activeMenu st' = Some menu
  ∧ bsContextMenuTrigger st' !! menu = Some trigger
  ∧ lastRightClickedElement st' = lastRightClickedElement st
  ∧ styleLeft st' !! menu = Some x
  ∧ styleTop st' !! menu = Some y
  ∧ frameRequests st' = frameRequests st ++ [(menu, x, y)]
  ∧ dispatched st'
    = dispatched (hideActiveMenu doc st) ++ [ShowNotification menu trigger x y]
  ∧ innerWidth st' = innerWidth st
  ∧ innerHeight st' = innerHeight st.
Proof.
  cbn. rewrite !lookup_insert_eq, hideActiveMenu_lastRightClickedElement,
    hideActiveMenu_frameRequests.
  by destruct (hideActiveMenu_viewport doc st) as [-> ->].
Qed.

(** X14: [BSContextMenu.show] with an id that resolves to nothing, or
    with an element (given directly or by id) that lacks the [context-menu]
    class, changes nothing: in particular it does not hide the menu that is
    open. *)
Theorem X14_show_invalid doc menuOrId x y trigger st :
  match menuOrId with
  | inl el => classListContains doc CONTEXT_MENU_CLASS el = false
  | inr id =>
      ∀ el, getElementById doc id = Some el →
            classListContains doc CONTEXT_MENU_CLASS el = false
  end →
  show doc menuOrId x y trigger st = st.
Proof.
  unfold show. destruct menuOrId as [el|id].
  - by intros ->.
  - intros H. destruct (getElementById doc id) as [el|]; [|done].
    by rewrite (H el).
Qed.

Lemma X14_witness :
  show Sample.page (inr "nope"%string) 10 10 None Sample.opened = Sample.opened
  ∧ show Sample.page (inr "btn"%string) 10 10 None Sample.opened = Sample.opened
  ∧ show Sample.page (inl Sample.paragraph) 10 10 None Sample.opened
    = Sample.opened.
Proof.
  split; [|split].
  - apply (X14_show_invalid Sample.page (inr "nope"%string)).
    intros el H. vm_compute in H. discriminate.
  - apply (X14_show_invalid Sample.page (inr "btn"%string)).
    intros el H. vm_compute in H. injection H as <-. reflexivity.
  - apply (X14_show_invalid Sample.page (inl Sample.paragraph)). reflexivity.
Defined.

(** X15: [BSContextMenu.show] with a valid menu, given as element or as
    the id that resolves to it (a non-empty id: the empty string resolves to
    nothing), gives the same result either way: the menu
    is the active and only shown one, its trigger is the given element or
    [document.body] when none is given, it is placed at the given point
    with one placement callback queued, the [show] notification follows the
    [hide] of whatever was open, and the toggle memory is not touched. *)
Theorem X15_show_valid doc menuOrId menu x y trigger st :
  reachable doc st →
  menuOrId = inl menu
  ∨ (∃ id, menuOrId = inr id ∧ getElementById doc id = Some menu) →
  classListContains doc CONTEXT_MENU_CLASS menu = true →
  let st' := show doc menuOrId x y trigger st in
  st' = show doc (inl menu) x y trigger st
  ∧ getActiveMenu st' = Some menu
  ∧ showClass st' = {[menu]}
  ∧ getTrigger st' = Some (Some (default body trigger))
  ∧ ariaExpanded st' !! default body trigger = Some true
  ∧ styleLeft st' !! menu = Some x
  ∧ styleTop st' !! menu = Some y
  ∧ frameRequests st' = frameRequests st ++ [(menu, x, y)]
  ∧ dispatched st'
    = dispatched (hideActiveMenu doc st)
      ++ [ShowNotification menu (default body trigger) x y]
  ∧ lastRightClickedElement st' = lastRightClickedElement st.
Proof.
  intros Hr Hm Hv st'.
  assert (Hst : st' = showMenu menu x y (default body trigger)
                        (hideActiveMenu doc st)).
  { subst st'. unfold show.
    destruct Hm as [->|(id & -> & ->)]; by rewrite Hv. }
  assert (Hcons : consistent doc st').
  { rewrite Hst. apply show_after_hide_consistent; [done|].
    by apply reachable_consistent. }
  destruct (showMenu_after_hide_fields doc menu x y (default body trigger) st)
    as (Ha & Ht & Hl & Hx & Hy & Hf & Hd & _).
  rewrite <-Hst in Ha, Ht, Hl, Hx, Hy, Hf, Hd.
  split; [by rewrite Hst; unfold show; rewrite Hv|].
  split; [done|].
  destruct Hcons as [Hopen _]. rewrite Ha in Hopen.
  destruct Hopen as (_ & Hs & t & Hmap & Haria).
  split; [done|].
  split; [by unfold getTrigger, getActiveMenu; rewrite Ha; cbn; rewrite Ht|].
  split; [|done].
  apply Haria. rewrite Hmap, lookup_singleton_eq in Ht. congruence.
Qed.

Lemma X15_witness :
  let st' := show Sample.page (inr "m1"%string) 400 300 None Sample.opened in
  getTrigger st' = Some (Some body)
  ∧ dispatched st'
    = [ShowNotification Sample.m1 Sample.btn 100 50;
       HideNotification Sample.m1 (Some Sample.btn);
       ShowNotification Sample.m1 body 400 300].
Proof.
  destruct (X15_show_valid Sample.page (inr "m1"%string) Sample.m1 400 300 None
              Sample.opened) as (_ & _ & _ & Hg & _ & _ & _ & _ & Hd & _).
  - exists 1000, 800, [ContextMenu (mouseEvent Sample.btn 100 50)]. reflexivity.
  - right. exists "m1"%string. split; reflexivity.
  - reflexivity.
  - split; [exact Hg|]. rewrite Hd. reflexivity.
Defined.

(** The empty string is no id: [getElementById] finds nothing for it, also
    on a page with an element whose [id] attribute is empty, and
    [BSContextMenu.show('')] does nothing. *)
Lemma getElementById_empty doc : getElementById doc "" = None.
Proof. reflexivity. Qed.

Lemma show_empty_id doc x y trigger st :
  show doc (inr ""%string) x y trigger st = st.
Proof. reflexivity. Qed.

Example widgets_empty_id :
  getAttribute Widgets.page "id" Widgets.unnamed = Some ""%string
  ∧ classListContains Widgets.page CONTEXT_MENU_CLASS Widgets.unnamed = true
  ∧ getElementById Widgets.page "" = None
  ∧ show Widgets.page (inr ""%string) 10 10 None Widgets.opened = Widgets.opened.
Proof. repeat split. Qed.

(** ** More on geometry *)

(** X16: the correction is idempotent: correcting a corrected point
    leaves it where it is, for every viewport, box and anchor. *)
Theorem X16_adjustedPosition_idempotent vw vh w h x y :
  let p := adjustedPosition vw vh w h x y in
  adjustedPosition vw vh w h p.1 p.2 = p.
Proof.
  cbn. unfold adjustedPosition.
  repeat match goal with
         | |- context [?a >? ?b] => destruct (Z.gtb_spec a b)
         end; f_equal; lia.
Qed.

(** X17: the correction never moves an anchor away from the origin: each
    corrected coordinate is either the anchor's or lies below it, and for
    an anchor coordinate that is not negative it stays between 0 and the
    anchor; an anchor coordinate that is negative and fits is returned
    as it is, still negative. *)
Theorem X17_adjustedPosition_bounds vw vh w h x y :
  let p := adjustedPosition vw vh w h x y in
  (p.1 = x ∨ (x + w > vw ∧ p.1 = Z.max 0 (vw - w - 5)))
  ∧ (p.2 = y ∨ (y + h > vh ∧ p.2 = Z.max 0 (vh - h - 5)))
  ∧ (0 <= x → 0 <= p.1 <= x)
  ∧ (0 <= y → 0 <= p.2 <= y)
  ∧ (x < 0 → x + w <= vw → p.1 = x)
  ∧ (y < 0 → y + h <= vh → p.2 = y).
Proof.
  intros p. subst p. rewrite adjustedPosition_x, adjustedPosition_y.
  destruct (Z.gtb_spec (x + w) vw), (Z.gtb_spec (y + h) vh);
    repeat split; try lia; auto.
Qed.

Lemma X17_witness :
  (0 <= (adjustedPosition 1000 800 150 120 990 790).1 <= 990)
  ∧ (adjustedPosition 1000 800 150 120 (-20) 10).1 = -20.
Proof.
  destruct (X17_adjustedPosition_bounds 1000 800 150 120 990 790)
    as (_ & _ & Hx & _).
  destruct (X17_adjustedPosition_bounds 1000 800 150 120 (-20) 10)
    as (_ & _ & _ & _ & Hneg & _).
  split; [apply Hx; lia|apply Hneg; lia].
Defined.

(** ** More on animation frames *)

Lemma frames_sameMenuState doc l : ∀ s,
  sameMenuState s (foldl (λ st cb, frameCallback doc cb.1.1 cb.1.2 cb.2 st) s l).
Proof.
  induction l as [|[[m x] y] l IH]; intros s; [apply sameMenuState_refl|].
  cbn [foldl]. eapply sameMenuState_trans; [|apply IH].
  apply frameCallback_sameMenuState.
Qed.

Lemma frames_frameRequests doc l : ∀ s,
  frameRequests (foldl (λ st cb, frameCallback doc cb.1.1 cb.1.2 cb.2 st) s l)
  = frameRequests s.
Proof.
  induction l as [|[[m x] y] l IH]; intros s; [done|].
  cbn [foldl]. by rewrite IH, frameCallback_frameRequests.
Qed.

(** X18: an animation frame runs every pending callback once and leaves
    none pending, so a second frame with nothing scheduled in between
    changes nothing; a frame never changes which menu is open, the toggle
    memory, the classes, the flags or the notifications. *)
Theorem X18_animationFrame_drains doc st :
  frameRequests (animationFrame doc st) = []
  ∧ animationFrame doc (animationFrame doc st) = animationFrame doc st
  ∧ sameMenuState st (animationFrame doc st).
Proof.
  split; [apply animationFrame_frameRequests|].
  split; [|apply animationFrame_sameMenuState].
  pose proof (animationFrame_frameRequests doc st) as H.
  revert H. generalize (animationFrame doc st). intros s Hs.
  unfold animationFrame. rewrite Hs. cbn [foldl].
  destruct s. cbn in *. by subst.
Qed.

(** X19: once the frame after a [show] has run, the menu sits at the
    corrected anchor computed from its rendered size, whatever older
    callbacks were still pending; if the menu with the 5-unit inset fits the
    viewport, its right and bottom edges are inside the viewport; and its
    first enabled item, if it can take focus, has the focus. *)
Theorem X19_frame_after_show doc st menu x y trigger e :
  reachable doc st →
  classListContains doc CONTEXT_MENU_CLASS menu = true →
  elementAt doc menu = Some e →
  displayed doc {[menu]} menu = true →
  let shown := show doc (inl menu) x y trigger st in
  let st' := animationFrame doc shown in
  let new := adjustedPosition (innerWidth st) (innerHeight st)
               (box e).1 (box e).2 x y in
  styleLeft st' !! menu = Some new.1
  ∧ styleTop st' !! menu = Some new.2
  ∧ ((box e).1 + 5 <= innerWidth st → new.1 + (box e).1 <= innerWidth st)
  ∧ ((box e).2 + 5 <= innerHeight st → new.2 + (box e).2 <= innerHeight st)
  ∧ getActiveMenu st' = Some menu
  ∧ frameRequests st' = []
  ∧ (∀ first,
       querySelector doc ENABLED_ITEM menu = Some first →
       canFocus doc first shown = true →
       activeElement st' = first).
Proof.
  intros Hr Hv He Hdisp shown st' new.
  assert (Hshown : shown = showMenu menu x y (default body trigger)
                             (hideActiveMenu doc st))
    by (subst shown; unfold show; by rewrite Hv).
  destruct (showMenu_after_hide_fields doc menu x y (default body trigger) st)
    as (Ha & _ & _ & _ & _ & Hf & _ & Hw & Hh).
  rewrite <-Hshown in Ha, Hf, Hw, Hh.
  assert (Hs : showClass shown = {[menu]}).
  { assert (Hcons : consistent doc shown).
    { rewrite Hshown. apply show_after_hide_consistent; [done|].
      by apply reachable_consistent. }
    destruct Hcons as [Hopen _]. rewrite Ha in Hopen.
    by destruct Hopen as (_ & ? & _). }
  (* the state in which the callback of this [show] runs *)
  set (before := foldl (λ st cb, frameCallback doc cb.1.1 cb.1.2 cb.2 st)
                   (setFrameRequests [] shown) (frameRequests st)).
  assert (Hst' : st' = frameCallback doc menu x y before).
  { subst st' before. unfold animationFrame. by rewrite Hf, foldl_app. }
  assert (Hsame : sameMenuState shown before).
  { eapply sameMenuState_trans; [|apply frames_sameMenuState]. by repeat split. }
  destruct Hsame as (Ea & _ & Es & _ & _ & _ & Ew & Eh).
  assert (Hrect : getBoundingClientRect doc menu before = box e).
  { unfold getBoundingClientRect. by rewrite He, Es, Hs, Hdisp. }
  assert (Hadj : adjustedPosition (innerWidth before) (innerHeight before)
                   (box e).1 (box e).2 x y = new).
  { subst new. by rewrite Ew, Eh, Hw, Hh. }
  assert (Hstyle : styleLeft st' !! menu = Some new.1
                   ∧ styleTop st' !! menu = Some new.2).
  { rewrite Hst'. unfold frameCallback, adjustMenuPosition.
    rewrite Hrect, Hadj.
    destruct (querySelector doc ENABLED_ITEM menu); [unfold_focus|];
      cbn; by rewrite !lookup_insert_eq. }
  destruct Hstyle as [Hl Ht]. split; [done|]. split; [done|].
  split.
  { intros Hfit. subst new. rewrite adjustedPosition_x.
    destruct (Z.gtb_spec (x + (box e).1) (innerWidth st)); lia. }
  split.
  { intros Hfit. subst new. rewrite adjustedPosition_y.
    destruct (Z.gtb_spec (y + (box e).2) (innerHeight st)); lia. }
  split.
  { unfold getActiveMenu. subst st'.
    by destruct (animationFrame_sameMenuState doc shown) as [-> _]. }
  split; [apply animationFrame_frameRequests|].
  intros first Hq Hcan. rewrite Hst'. unfold frameCallback. rewrite Hq.
  unfold focus.
  assert (canFocus doc first (adjustMenuPosition doc menu x y before) = true)
    as ->; [|done].
  unfold canFocus in *. cbn [showClass adjustMenuPosition setStyle].
  by rewrite Es.
Qed.

Lemma X19_witness :
  let st' := animationFrame Sample.page
               (show Sample.page (inl Sample.m1) 990 750 (Some Sample.pic)
                  Sample.opened) in
  styleLeft st' !! Sample.m1 = Some 845
  ∧ styleTop st' !! Sample.m1 = Some 675
  ∧ activeElement st' = Sample.link.
Proof.
  destruct (X19_frame_after_show Sample.page Sample.opened Sample.m1 990 750
              (Some Sample.pic)
              (Sample.el "DIV" [("id", "m1")]%string [CONTEXT_MENU_CLASS] false
                 (150, 120)))
    as (Hl & Ht & _ & _ & _ & _ & Hfocus).
  - exists 1000, 800, [ContextMenu (mouseEvent Sample.btn 100 50)]. reflexivity.
  - reflexivity.
  - reflexivity.
  - vm_compute. reflexivity.
  - split; [exact Hl|]. split; [exact Ht|].
    apply Hfocus; vm_compute; reflexivity.
Defined.

(** ** The trigger scan *)

Lemma hasTabindex_lookup doc t t' h :
  t' !! h = t !! h → hasTabindex doc t' h = hasTabindex doc t h.
Proof. unfold hasTabindex. by intros ->. Qed.

Lemma makeFocusable_lookup doc t a h :
  makeFocusable doc t a !! h
  = if decide (h = a)
    then (if hasTabindex doc t a || isNativelyFocusable doc a
          then t !! a else Some "0"%string)
    else t !! h.
Proof.
  unfold makeFocusable.
  destruct (hasTabindex doc t a), (isNativelyFocusable doc a); cbn;
    case_decide; subst; try done.
  - by rewrite lookup_insert_eq.
  - by rewrite lookup_insert_ne.
Qed.

(** What the scan leaves at each element. *)
Lemma ensureTriggersAreFocusable_lookup doc t h :
  ensureTriggersAreFocusable doc t !! h
  = if bool_decide (h ∈ documentQuerySelectorAll doc TRIGGER)
       && negb (hasTabindex doc t h) && negb (isNativelyFocusable doc h)
    then Some "0"%string
    else t !! h.
Proof.
  unfold ensureTriggersAreFocusable.
  generalize (documentQuerySelectorAll doc TRIGGER). intros l. revert t.
  induction l as [|a l IH]; intros t; [done|].
  cbn [foldl]. rewrite IH.
  pose proof (makeFocusable_lookup doc t a h) as Hm.
  destruct (decide (h = a)) as [->|Hne].
  - rewrite (bool_decide_true (a ∈ a :: l)) by apply list_elem_of_here.
    rewrite Hm.
    destruct (hasTabindex doc t a) eqn:Ht, (isNativelyFocusable doc a) eqn:Hn;
      cbn in *.
    + rewrite (hasTabindex_lookup doc t _ a Hm), Ht. cbn.
      by rewrite andb_false_r.
    + rewrite (hasTabindex_lookup doc t _ a Hm), Ht. cbn.
      by rewrite andb_false_r.
    + by rewrite andb_false_r.
    + assert (hasTabindex doc (makeFocusable doc t a) a = true) as ->.
      { unfold hasTabindex. rewrite Hm. cbn. by rewrite orb_true_r. }
      cbn. by rewrite andb_false_r.
  - rewrite (hasTabindex_lookup doc t _ h Hm), Hm.
    assert (bool_decide (h ∈ a :: l) = bool_decide (h ∈ l)) as ->; [|done].
    apply bool_decide_ext. rewrite elem_of_cons. tauto.
Qed.

(** X20: the trigger scan is idempotent: [refresh] right after a scan
    changes nothing, so re-registering elements that are already registered
    is not observable. *)
Theorem X20_refresh_idempotent doc tabindex :
  refresh doc (ensureTriggersAreFocusable doc tabindex)
  = ensureTriggersAreFocusable doc tabindex.
Proof.
  unfold refresh. apply map_eq. intros h.
  pose proof (ensureTriggersAreFocusable_lookup doc tabindex h) as H.
  revert H. generalize (ensureTriggersAreFocusable doc tabindex).
  intros scanned H. rewrite (ensureTriggersAreFocusable_lookup doc scanned).
  destruct (bool_decide (h ∈ documentQuerySelectorAll doc TRIGGER)) eqn:Hin,
    (hasTabindex doc tabindex h) eqn:Ht,
    (isNativelyFocusable doc h) eqn:Hn; cbn [andb negb] in H |- *;
    rewrite ?andb_false_r; try done.
  - by rewrite (hasTabindex_lookup doc tabindex scanned h H), Ht.
  - assert (hasTabindex doc scanned h = true) as ->; [|done].
    unfold hasTabindex. rewrite H. cbn. by rewrite orb_true_r.
Qed.

(** X21: after the scan every element carrying the binding attribute is
    reachable by keyboard: it has a [tabindex], from the markup or from the
    script, or it is a button, input, select or textarea, or an anchor with
    an [href]. *)
Theorem X21_triggers_focusable doc tabindex h :
  h ∈ documentQuerySelectorAll doc TRIGGER →
  hasTabindex doc (ensureTriggersAreFocusable doc tabindex) h = true
  ∨ isNativelyFocusable doc h = true.
Proof.
  intros Hin. pose proof (ensureTriggersAreFocusable_lookup doc tabindex h) as H.
  rewrite bool_decide_true in H by done. cbn [andb negb] in H.
  destruct (isNativelyFocusable doc h); [by right|left].
  destruct (hasTabindex doc tabindex h) eqn:Ht; cbn [andb negb] in H.
  - by rewrite (hasTabindex_lookup doc tabindex _ h H).
  - unfold hasTabindex. rewrite H. cbn. by rewrite orb_true_r.
Qed.

Lemma X21_witness :
  hasTabindex Triggers.page (ensureTriggersAreFocusable Triggers.page ∅)
    Triggers.bareAnchor = true
  ∨ isNativelyFocusable Triggers.page Triggers.bareAnchor = true.
Proof.
  apply X21_triggers_focusable. vm_compute.
  do 2 apply list_elem_of_further. apply list_elem_of_here.
Defined.

(** X22: the scan sets [tabindex="0"] on exactly the bound elements that
    have no [tabindex] and are not natively focusable (an anchor without
    [href] is not), and touches nothing else: an element without the
    binding attribute, a [tabindex] already present in the markup or set
    earlier, and a natively focusable trigger are all left as they are. *)
Theorem X22_scan_is_exact doc tabindex h :
  (h ∉ documentQuerySelectorAll doc TRIGGER →
     ensureTriggersAreFocusable doc tabindex !! h = tabindex !! h)
  ∧ (hasTabindex doc tabindex h = true →
     ensureTriggersAreFocusable doc tabindex !! h = tabindex !! h)
  ∧ (isNativelyFocusable doc h = true →
     ensureTriggersAreFocusable doc tabindex !! h = tabindex !! h)
  ∧ (h ∈ documentQuerySelectorAll doc TRIGGER →
     hasTabindex doc tabindex h = false →
     isNativelyFocusable doc h = false →
     ensureTriggersAreFocusable doc tabindex !! h = Some "0"%string).
Proof.
  rewrite ensureTriggersAreFocusable_lookup. repeat split.
  - intros Hn. by rewrite bool_decide_false.
  - intros ->. by rewrite andb_false_r.
  - intros ->. by rewrite andb_false_r.
  - intros Hin -> ->. by rewrite bool_decide_true.
Qed.

Lemma X22_witness :
  let scanned := ensureTriggersAreFocusable Triggers.page ∅ in
  scanned !! Triggers.div = Some "0"%string
  ∧ scanned !! Triggers.bareAnchor = Some "0"%string
  ∧ scanned !! Triggers.button = None
  ∧ scanned !! Triggers.anchor = None
  ∧ scanned !! Triggers.span = None
  ∧ scanned !! Triggers.paragraph = None.
Proof.
  intros scanned. subst scanned.
  destruct (X22_scan_is_exact Triggers.page ∅ Triggers.div) as (_ & _ & _ & Hd).
  destruct (X22_scan_is_exact Triggers.page ∅ Triggers.bareAnchor)
    as (_ & _ & _ & Ha).
  destruct (X22_scan_is_exact Triggers.page ∅ Triggers.button) as (_ & _ & Hb & _).
  destruct (X22_scan_is_exact Triggers.page ∅ Triggers.anchor) as (_ & _ & Hh & _).
  destruct (X22_scan_is_exact Triggers.page ∅ Triggers.span) as (_ & Hs & _).
  destruct (X22_scan_is_exact Triggers.page ∅ Triggers.paragraph) as (Hp & _).
  split; [apply Hd; [vm_compute; apply list_elem_of_here|reflexivity..]|].
  split; [apply Ha; [vm_compute; do 2 apply list_elem_of_further;
                     apply list_elem_of_here|reflexivity..]|].
  split; [rewrite Hb; reflexivity|]. split; [rewrite Hh; reflexivity|].
  split; [rewrite Hs; reflexivity|].
  rewrite Hp; [reflexivity|]. vm_compute. not_listed.
Defined.

(** ** What opens a menu *)

Lemma handleClickOutside_activeMenu doc event st :
  activeMenu (handleClickOutside doc event st).2 = activeMenu st
  ∨ activeMenu (handleClickOutside doc event st).2 = None.
Proof.
  unfold handleClickOutside. destruct (activeMenu st) eqn:Ha; [|auto].
  destruct (contains _ _); [destruct (closest _ _ _)|]; cbn [snd];
    rewrite ?hideActiveMenu_activeMenu; auto.
Qed.

(** X23: only a secondary click and [BSContextMenu.show] ever open a
    menu or dispatch a [show] notification: after a primary click, a key, a
    scroll, a resize, an animation frame or [BSContextMenu.hide()] the
    active menu is the one there was or none, and the notifications are
    those there were, followed at most by one [hide]. *)
Theorem X23_what_opens_a_menu doc i st :
  (∀ event, i ≠ ContextMenu event) →
  (∀ menuOrId x y trigger, i ≠ ApiShow menuOrId x y trigger) →
  (activeMenu (step doc i st) = activeMenu st
   ∧ dispatched (step doc i st) = dispatched st)
  ∨ (activeMenu (step doc i st) = None
     ∧ ∃ menu, activeMenu st = Some menu
               ∧ dispatched (step doc i st)
                 = dispatched st
                   ++ [HideNotification menu (bsContextMenuTrigger st !! menu)]).
Proof.
  intros Hnc Hns.
  assert (Hhide : ∀ s, activeMenu s = activeMenu st →
                       dispatched s = dispatched st →
                       bsContextMenuTrigger s = bsContextMenuTrigger st →
            (activeMenu (hideActiveMenu doc s) = activeMenu st
             ∧ dispatched (hideActiveMenu doc s) = dispatched st)
            ∨ (activeMenu (hideActiveMenu doc s) = None
               ∧ ∃ menu, activeMenu st = Some menu
                   ∧ dispatched (hideActiveMenu doc s)
                     = dispatched st
                       ++ [HideNotification menu
                             (bsContextMenuTrigger st !! menu)])).
  { intros s Ha Hd Ht. destruct (activeMenu st) as [menu|] eqn:Hst.
    - right. split; [apply hideActiveMenu_activeMenu|]. exists menu.
      split; [done|]. by rewrite (hideActiveMenu_dispatched doc s menu Ha), Hd, Ht.
    - left. by rewrite hideActiveMenu_closed. }
  assert (Hclick : ∀ event,
            (activeMenu (handleClickOutside doc event st).2 = activeMenu st
             ∧ dispatched (handleClickOutside doc event st).2 = dispatched st)
            ∨ (activeMenu (handleClickOutside doc event st).2 = None
               ∧ ∃ menu, activeMenu st = Some menu
                   ∧ dispatched (handleClickOutside doc event st).2
                     = dispatched st
                       ++ [HideNotification menu
                             (bsContextMenuTrigger st !! menu)])).
  { intros event. unfold handleClickOutside.
    destruct (activeMenu st) eqn:Ha; [|auto].
    destruct (contains _ _); [destruct (closest _ _ _)|]; cbn [snd]; auto;
      by apply Hhide. }
  destruct i as [event|event|event| |w h| |menuOrId x y trigger|]; cbn [step].
  - by destruct (Hnc event).
  - apply Hclick.
  - unfold handleKeyDown. destruct (activeMenu st) eqn:Ha; [|auto].
    repeat case_decide; cbn [snd]; auto;
      try (left;
           match goal with
           | |- context [focusNextItem doc ?d st] =>
               destruct (focusNextItem_sameMenuState doc d st)
                 as (? & _ & _ & _ & _ & ? & _)
           end; split; congruence);
      try (by apply Hhide).
    destruct (classListContains _ _ _); cbn [snd]; [|auto].
    unfold click. destruct (matchesAt _ _ _); [auto|apply Hclick].
  - by apply Hhide.
  - by apply Hhide.
  - left. by destruct (animationFrame_sameMenuState doc st)
               as (? & _ & _ & _ & _ & ? & _).
  - by destruct (Hns menuOrId x y trigger).
  - by apply Hhide.
Qed.

Lemma X23_witness :
  activeMenu
    (step Sample.page (KeyDown (keyboardEvent Sample.btn "Enter" false))
       Sample.start) = activeMenu Sample.start
  ∧ activeMenu (step Sample.page (Resize 640 480) Sample.opened) = None.
Proof.
  destruct (X23_what_opens_a_menu Sample.page
              (KeyDown (keyboardEvent Sample.btn "Enter" false)) Sample.start)
    as [[H1 _]|[_ (menu & H1 & _)]]; [done|done| |discriminate].
  destruct (X23_what_opens_a_menu Sample.page (Resize 640 480) Sample.opened)
    as [[H2 _]|[H2 _]]; [done|done| |by split].
  exfalso. vm_compute in H2. discriminate.
Defined.
